(** * InputManager: pointer, touch and wheel input of a pixi viewport

    A shallow embedding of [src/InputManager.ts].  The class keeps four
    mutable fields ([clickedAvailable], [isMouseDown], [last], [touches]);
    every handler is written here as a function from the receiver to the
    updated receiver together with the list of calls it makes on its
    collaborators (the plugin chain, the event, the viewport's emitter), in
    program order.  The viewport is an object owned by somebody else and read
    afresh by every handler, so each handler takes the viewport as it is at
    the time of the call.

    Collaborators.  The plugin chain and the listeners of 'clicked' are
    opaque: a dispatcher is the verdict it returns for an event, and neither
    it nor a listener calls back into the [InputManager] while a handler
    runs.

    Numbers.  JavaScript numbers that carry coordinates, sizes and the
    threshold are IEEE 754 binary64 values: they are Rocq's primitive
    [float], whose subtraction, multiplication, division, absolute value and
    comparison round and treat infinities and NaN as JavaScript's do.
    Pointer identities and [count()] are integers ([Z]). *)

From stdpp Require Import base gmap sets.
From Stdlib Require Import ZArith Floats String List Bool Lia.
Import ListNotations.

Local Open Scope string_scope.
Local Open Scope list_scope.
Local Open Scope Z_scope.

(** ** Data *)

(** [Point] of @pixi/core: fields [x] and [y]. *)
Record Point := new_Point { p_x : float; p_y : float }.

(** [IViewportTouch]: [{ id: number; last: IPointData | null }]. *)
Module IViewportTouch.
Record t := mk { id : Z; last : option Point }.
End IViewportTouch.

(** The fields of a [PointerEvent] that the handlers read. *)
Record PointerEvent := mkPointerEvent {
  pointerType : string;
  pointerId : Z;
  clientX : float;
  clientY : float
}.

(** The fields of a [WheelEvent] that the handlers read ([clientX],
    [clientY]). *)
Record WheelEvent := mkWheelEvent {
  wheelClientX : float;
  wheelClientY : float
}.

(** A plugin as [down] sees it: only [isActive()] is called. *)
Record Plugin := mkPlugin { isActive : bool }.

(** [viewport.plugins]: lookup by name ([get(name, true)], absent plugins
    are [None]) and the four dispatchers, each returning the chain's
    verdict for the event it is given. *)
Module PluginManager.
Record t := mk {
  get : string -> option Plugin;
  down : PointerEvent -> bool;
  move : PointerEvent -> bool;
  up : PointerEvent -> bool;
  wheel : WheelEvent -> bool
}.
End PluginManager.

(** [DOMRect] as far as [mapPositionToPoint] reads it. *)
Record DOMRect := mkDOMRect {
  rect_left : float;
  rect_top : float;
  rect_width : float;
  rect_height : float
}.

(** [viewport.options.canvasElement]: [parentElement] is [None] for a
    detached canvas; [width] and [height] are the backing size. *)
Module Canvas.
Record t := mk {
  parentElement : option unit;
  width : float;
  height : float;
  getBoundingClientRect : DOMRect
}.
End Canvas.

Module Options.
Record t := mk {
  stopPropagation : bool;
  passiveWheel : bool;
  canvasElement : Canvas.t
}.
End Options.

(** The viewport as the handlers read it. *)
Module Viewport.
Record t := mk {
  pause : bool;
  worldVisible : bool;
  threshold : float;
  left : float;
  right : float;
  top : float;
  bottom : float;
  toWorld : Point -> Point;
  toLocal : Point -> Point;
  plugins : PluginManager.t;
  options : Options.t
}.
End Viewport.

(** Payload of the ['clicked'] signal. *)
Record ClickedEvent := mkClicked {
  event : PointerEvent;
  screen : Point;
  world : Point;
  viewport : Viewport.t
}.

(** What a handler does to its collaborators, in program order. *)
Inductive Effect :=
| plugins_down (e : PointerEvent)
| plugins_move (e : PointerEvent)
| plugins_up (e : PointerEvent)
| plugins_wheel (e : WheelEvent)
| emit_clicked (c : ClickedEvent)
| event_stopPropagation
| event_preventDefault.

(** The fields of the class.  [clickedAvailable] and [last] are optional
    in the source and only ever tested for truthiness: [None] stands for
    [undefined] (and, for [last], also for [null]). *)
Record InputManager := mkInputManager {
  clickedAvailable : option bool;
  isMouseDown : bool;
  last : option Point;
  touches : list IViewportTouch.t
}.

(** The receiver once the constructor has run ([touches = []],
    [isMouseDown = false], the other two fields never assigned). *)
Definition constructed : InputManager :=
  mkInputManager None false None [].

Definition set_clickedAvailable (this : InputManager) (b : bool) : InputManager :=
  mkInputManager (Some b) (isMouseDown this) (last this) (touches this).

Definition set_isMouseDown (this : InputManager) (b : bool) : InputManager :=
  mkInputManager (clickedAvailable this) b (last this) (touches this).

Definition set_last (this : InputManager) (p : option Point) : InputManager :=
  mkInputManager (clickedAvailable this) (isMouseDown this) p (touches this).

Definition set_touches (this : InputManager) (ts : list IViewportTouch.t) : InputManager :=
  mkInputManager (clickedAvailable this) (isMouseDown this) (last this) ts.

(** Truthiness of an optional boolean and of an optional object. *)
Definition truthy (b : option bool) : bool :=
  match b with Some true => true | _ => false end.

Definition present {A : Type} (o : option A) : bool :=
  match o with Some _ => true | None => false end.

(** ** Registry: [get], [remove], [count] *)

(** The loop of [get]: the first touch whose id is [id]. *)
Fixpoint get_from (ts : list IViewportTouch.t) (id : Z) : option IViewportTouch.t :=
  match ts with
  | [] => None
  | touch :: rest =>
      if IViewportTouch.id touch =? id then Some touch else get_from rest id
  end.

Definition get (this : InputManager) (id : Z) : option IViewportTouch.t :=
  get_from (touches this) id.

(** The loop of [remove]: [splice(i, 1)] at the first index whose touch has
    this id, then return; nothing when no touch has it. *)
Fixpoint splice_first (ts : list IViewportTouch.t) (id : Z) : list IViewportTouch.t :=
  match ts with
  | [] => []
  | touch :: rest =>
      if IViewportTouch.id touch =? id then rest
      else touch :: splice_first rest id
  end.

Definition remove (this : InputManager) (id : Z) : InputManager :=
  set_touches this (splice_first (touches this) id).

Definition count (this : InputManager) : Z :=
  (if isMouseDown this then 1 else 0) + Z.of_nat (length (touches this)).

(** ** Handlers *)

(** The guard every event handler starts with. *)
Definition ignored (vp : Viewport.t) : bool :=
  Viewport.pause vp || negb (Viewport.worldVisible vp).

(** [if (stop && this.viewport.options.stopPropagation) event.stopPropagation()] *)
Definition propagation (vp : Viewport.t) (stop : bool) : list Effect :=
  if stop && Options.stopPropagation (Viewport.options vp)
  then [event_stopPropagation] else [].

(** [!plugin || !plugin.isActive()] *)
Definition absent_or_inactive (plugin : option Plugin) : bool :=
  match plugin with
  | None => true
  | Some p => negb (isActive p)
  end.

(** The first statement of [down] after the guard: a mouse sets the flag,
    any other pointer is pushed unless [get] finds its id. *)
Definition down_register (event : PointerEvent) (this : InputManager) : InputManager :=
  if String.eqb (pointerType event) "mouse" then set_isMouseDown this true
  else if negb (present (get this (pointerId event)))
  then set_touches this
         (touches this ++ [IViewportTouch.mk (pointerId event) None])
  else this.

(** The second statement of [down]: [if (this.count() === 1) ... else ...]. *)
Definition down_arm (vp : Viewport.t) (event : PointerEvent) (this : InputManager)
  : InputManager :=
  if count this =? 1 then
    let this := set_last this (Some (new_Point (clientX event) (clientY event))) in
    let decelerate := PluginManager.get (Viewport.plugins vp) "decelerate" in
    let bounce := PluginManager.get (Viewport.plugins vp) "bounce" in
    if absent_or_inactive decelerate && absent_or_inactive bounce
    then set_clickedAvailable this true
    else set_clickedAvailable this false
  else set_clickedAvailable this false.

Definition down (vp : Viewport.t) (event : PointerEvent) (this : InputManager)
  : InputManager * list Effect :=
  if ignored vp then (this, [])
  else
    let this := down_register event this in
    let this := down_arm vp event this in
    let stop := PluginManager.down (Viewport.plugins vp) event in
    (this, plugins_down event :: propagation vp stop).

Definition clear (this : InputManager) : InputManager * list Effect :=
  let this := set_isMouseDown this false in
  let this := set_touches this [] in
  let this := set_last this None in
  (this, []).

(** [Math.abs(change) >= this.viewport.threshold] *)
Definition checkThreshold (vp : Viewport.t) (change : float) : bool :=
  PrimFloat.leb (Viewport.threshold vp) (PrimFloat.abs change).

(** The threshold test of [move]:
    [if (this.clickedAvailable && this.last) ...]. *)
Definition move_track (vp : Viewport.t) (event : PointerEvent) (this : InputManager)
  : InputManager :=
  match truthy (clickedAvailable this), last this with
  | true, Some last_ =>
      let distX := (clientX event - p_x last_)%float in
      let distY := (clientY event - p_y last_)%float in
      if checkThreshold vp distX || checkThreshold vp distY
      then set_clickedAvailable this false
      else this
  | _, _ => this
  end.

Definition move (vp : Viewport.t) (event : PointerEvent) (this : InputManager)
  : InputManager * list Effect :=
  if ignored vp then (this, [])
  else
    let stop := PluginManager.move (Viewport.plugins vp) event in
    let this := move_track vp event this in
    (this, plugins_move event :: propagation vp stop).

(** The first two statements of [up] after the guard: a mouse clears the
    flag, any other pointer is removed from [touches]. *)
Definition up_release (event : PointerEvent) (this : InputManager) : InputManager :=
  let this :=
    if String.eqb (pointerType event) "mouse" then set_isMouseDown this false
    else this in
  if negb (String.eqb (pointerType event) "mouse")
  then remove this (pointerId event)
  else this.

(** [if (this.clickedAvailable && this.count() === 0 && this.last) ...]:
    the receiver afterwards and what was emitted. *)
Definition up_resolve (vp : Viewport.t) (event : PointerEvent) (this : InputManager)
  : InputManager * list Effect :=
  match truthy (clickedAvailable this) && (count this =? 0), last this with
  | true, Some last_ =>
      (set_clickedAvailable this false,
       [emit_clicked (mkClicked event last_ (Viewport.toWorld vp last_) vp)])
  | _, _ => (this, [])
  end.

Definition up (vp : Viewport.t) (event : PointerEvent) (this : InputManager)
  : InputManager * list Effect :=
  if ignored vp then (this, [])
  else
    let this := up_release event this in
    let stop := PluginManager.up (Viewport.plugins vp) event in
    let '(this, emitted) := up_resolve vp event this in
    (this, plugins_up event :: emitted ++ propagation vp stop).

(** [mapPositionToPoint] overwrites both fields of the point it is given;
    the point it leaves behind is returned. *)
Definition mapPositionToPoint (vp : Viewport.t) (x y : float) : Point :=
  let canvas := Options.canvasElement (Viewport.options vp) in
  let rect :=
    match Canvas.parentElement canvas with
    | None => mkDOMRect 0 0 (Canvas.width canvas) (Canvas.height canvas)
    | Some _ => Canvas.getBoundingClientRect canvas
    end in
  let resolutionMultiplier := 1%float in
  new_Point
    ((x - rect_left rect) * (Canvas.width canvas / rect_width rect) * resolutionMultiplier)%float
    ((y - rect_top rect) * (Canvas.height canvas / rect_height rect) * resolutionMultiplier)%float.

Definition getPointerPosition (vp : Viewport.t) (event : WheelEvent) : Point :=
  mapPositionToPoint vp (wheelClientX event) (wheelClientY event).

Definition handleWheel (vp : Viewport.t) (event : WheelEvent) (this : InputManager)
  : InputManager * list Effect :=
  if ignored vp then (this, [])
  else
    let point := Viewport.toLocal vp (getPointerPosition vp event) in
    if PrimFloat.leb (Viewport.left vp) (p_x point)
       && PrimFloat.leb (p_x point) (Viewport.right vp)
       && PrimFloat.leb (Viewport.top vp) (p_y point)
       && PrimFloat.leb (p_y point) (Viewport.bottom vp)
    then
      let stop := PluginManager.wheel (Viewport.plugins vp) event in
      (this, plugins_wheel event ::
             if stop && negb (Options.passiveWheel (Viewport.options vp))
             then [event_preventDefault] else [])
    else (this, []).

Definition pause (this : InputManager) : InputManager * list Effect :=
  let this := set_touches this [] in
  let this := set_isMouseDown this false in
  (this, []).

(** ** Sequences of calls *)

(** What can happen to an [InputManager]: the listeners call [down],
    [move], [up] and [handleWheel] with the viewport as it is then, and the
    owner calls [pause] and [clear]. *)
Inductive Call :=
| call_down (vp : Viewport.t) (e : PointerEvent)
| call_move (vp : Viewport.t) (e : PointerEvent)
| call_up (vp : Viewport.t) (e : PointerEvent)
| call_handleWheel (vp : Viewport.t) (e : WheelEvent)
| call_pause
| call_clear.

Definition step (c : Call) (this : InputManager) : InputManager * list Effect :=
  match c with
  | call_down vp e => down vp e this
  | call_move vp e => move vp e this
  | call_up vp e => up vp e this
  | call_handleWheel vp e => handleWheel vp e this
  | call_pause => pause this
  | call_clear => clear this
  end.

(** Calls are handled one after the other, each to completion. *)
Fixpoint run (calls : list Call) (this : InputManager) : InputManager * list Effect :=
  match calls with
  | [] => (this, [])
  | c :: rest =>
      let '(this1, effects1) := step c this in
      let '(this2, effects2) := run rest this1 in
      (this2, effects1 ++ effects2)
  end.

(** The ['clicked'] signals among some effects, in order. *)
Fixpoint clicked (effects : list Effect) : list ClickedEvent :=
  match effects with
  | [] => []
  | emit_clicked c :: rest => c :: clicked rest
  | _ :: rest => clicked rest
  end.

(** ** Vocabulary of the specification *)

(** An indicator is present and reports active. *)
Definition present_and_active (plugin : option Plugin) : bool :=
  match plugin with
  | Some p => isActive p
  | None => false
  end.

Definition decelerate_of (vp : Viewport.t) : option Plugin :=
  PluginManager.get (Viewport.plugins vp) "decelerate".

Definition bounce_of (vp : Viewport.t) : option Plugin :=
  PluginManager.get (Viewport.plugins vp) "bounce".

(** A touch (non-mouse) pointer event. *)
Definition is_touch (e : PointerEvent) : bool :=
  negb (String.eqb (pointerType e) "mouse").

(** The ids of the contacts in the registry, in order. *)
Definition ids (ts : list IViewportTouch.t) : list Z :=
  List.map IViewportTouch.id ts.

(** How many contacts of the registry carry this id. *)
Definition contacts_with (id : Z) (this : InputManager) : nat :=
  length (List.filter (fun touch => IViewportTouch.id touch =? id) (touches this)).

(** The set of touch ids registered and not yet unregistered, read off the
    history of calls: a handled touch down registers its id, a handled
    touch up unregisters it, [pause] and [clear] unregister everything. *)
Definition track (c : Call) (registered : gset Z) : gset Z :=
  match c with
  | call_down vp e =>
      if ignored vp then registered
      else if is_touch e then {[ pointerId e ]} ∪ registered
      else registered
  | call_up vp e =>
      if ignored vp then registered
      else if is_touch e then registered ∖ {[ pointerId e ]}
      else registered
  | call_pause | call_clear => ∅
  | call_move _ _ | call_handleWheel _ _ => registered
  end.

Fixpoint registered_after (calls : list Call) (registered : gset Z) : gset Z :=
  match calls with
  | [] => registered
  | c :: rest => registered_after rest (track c registered)
  end.

(** A call that unregisters [id]. *)
Definition unregisters (id : Z) (c : Call) : bool :=
  match c with
  | call_up vp e => negb (ignored vp) && is_touch e && (pointerId e =? id)
  | call_pause | call_clear => true
  | _ => false
  end.

(** A move that, if handled, does not reach the threshold on either axis
    relative to the point [(x0, y0)]: the comparison [move] makes on the
    distance it computes answers false. *)
Definition below_threshold (x0 y0 : float) (m : Viewport.t * PointerEvent) : Prop :=
  ignored (fst m) = false ->
  (Viewport.threshold (fst m) <=? PrimFloat.abs (clientX (snd m) - x0))%float = false /\
  (Viewport.threshold (fst m) <=? PrimFloat.abs (clientY (snd m) - y0))%float = false.

Definition moves_of (ms : list (Viewport.t * PointerEvent)) : list Call :=
  List.map (fun m => call_move (fst m) (snd m)) ms.

(** A handled down event arriving when nothing is pressed: it brings
    [count()] from 0 to 1. *)
Definition rearming (c : Call) (this : InputManager) : bool :=
  match c with
  | call_down vp _ => negb (ignored vp) && (count this =? 0)
  | _ => false
  end.

(** No call of the sequence, run from [this], is such a down event. *)
Fixpoint no_rearming (calls : list Call) (this : InputManager) : bool :=
  match calls with
  | [] => true
  | c :: rest => negb (rearming c this) && no_rearming rest (fst (step c this))
  end.

(** A call without effect by the viewport's guard: an event arriving while
    the viewport is paused or not visible; also [pause] and [clear], which
    call nobody. *)
Definition ignored_call (c : Call) : bool :=
  match c with
  | call_down vp _ | call_move vp _ | call_up vp _ => ignored vp
  | call_handleWheel vp _ => ignored vp
  | call_pause | call_clear => true
  end.

(** The point lies in the viewport's visible rectangle, borders included. *)
Definition within_bounds (vp : Viewport.t) (p : Point) : Prop :=
  (Viewport.left vp <=? p_x p)%float = true /\
  (p_x p <=? Viewport.right vp)%float = true /\
  (Viewport.top vp <=? p_y p)%float = true /\
  (p_y p <=? Viewport.bottom vp)%float = true.

(** The coordinate mapper as the specification words it: the rectangle is
    the canvas's bounding rectangle when it has a layout parent and
    [{left:0, top:0, width:backingWidth, height:backingHeight}] when
    detached; [local = (screen - rect.origin) * (backing / rect.size)]. *)
Definition spec_rect (canvas : Canvas.t) : DOMRect :=
  if present (Canvas.parentElement canvas)
  then Canvas.getBoundingClientRect canvas
  else mkDOMRect 0 0 (Canvas.width canvas) (Canvas.height canvas).

Definition spec_mapScreenToLocal (canvas : Canvas.t) (screenX screenY : float) : Point :=
  let rect := spec_rect canvas in
  new_Point
    ((screenX - rect_left rect) * (Canvas.width canvas / rect_width rect))%float
    ((screenY - rect_top rect) * (Canvas.height canvas / rect_height rect))%float.

(** ** Invariants and named states *)

(** The registry never holds two contacts with one id, and the ids it holds
    are the ones the history says are registered. *)
Definition tracks (this : InputManager) (registered : gset Z) : Prop :=
  List.NoDup (ids (touches this)) /\
  registered = list_to_set (ids (touches this)).

(** The receiver while a single armed touch is down: reference point [p],
    touch [id]. *)
Definition armed_with (p : Point) (id : Z) : InputManager :=
  mkInputManager (Some true) false (Some p) [IViewportTouch.mk id None].

(** Nothing is pressed and no click is pending. *)
Definition quiet (this : InputManager) : Prop :=
  truthy (clickedAvailable this) = false /\ count this = 0.

(** ** Sample data *)

Definition no_plugins : PluginManager.t :=
  PluginManager.mk (fun _ => None) (fun _ => false) (fun _ => false)
                   (fun _ => false) (fun _ => false).

(** Backing size 800x600 shown as 400x300 at offset (10,10). *)
Definition sample_canvas : Canvas.t :=
  Canvas.mk (Some tt) 800 600 (mkDOMRect 10 10 400 300).

(** A running, visible viewport with threshold 5 and bounds [0,800]x[0,600],
    no plugins, identity transforms. *)
Definition sample_viewport : Viewport.t :=
  Viewport.mk false true 5 0 800 0 600 (fun p => p) (fun p => p)
              no_plugins (Options.mk true false sample_canvas).

(** The sample viewport while it is paused. *)
Definition sample_paused_viewport : Viewport.t :=
  Viewport.mk true true 5 0 800 0 600 (fun p => p) (fun p => p)
              no_plugins (Options.mk true false sample_canvas).

(** The doubles that the literals 0.1 and 5.1 denote in JavaScript. *)
Definition double_0_1 : float := 0x1.999999999999ap-4.

Definition double_5_1 : float := 0x1.4666666666666p+2.

Definition touch_at (id : Z) (x y : float) : PointerEvent :=
  mkPointerEvent "touch" id x y.

(** A press in progress: touch 1 went down at (3,4) on the sample
    viewport and armed the click. *)
Definition sample_pressed : InputManager :=
  fst (down sample_viewport (touch_at 1 3 4) constructed).

(** ** Listeners: the constructor, [addListeners] and [destroy] *)

(** The four arrow functions [addListeners] creates; each calls one method
    of the [InputManager] that created it.  A closure is identified by its
    creator and by that method. *)
Inductive Method := method_down | method_move | method_up | method_handleWheel.

Record Callback := mkCallback { owner : nat; method : Method }.

Definition Method_eqb (a b : Method) : bool :=
  match a, b with
  | method_down, method_down => true
  | method_move, method_move => true
  | method_up, method_up => true
  | method_handleWheel, method_handleWheel => true
  | _, _ => false
  end.

Definition Callback_eqb (a b : Callback) : bool :=
  Nat.eqb (owner a) (owner b) && Method_eqb (method a) (method b).

(** One entry of an event target's listener list: the event type, the
    callback and the [passive] option (capture is never set here). *)
Record Listener := mkListener {
  listener_type : string;
  listener_callback : Callback;
  listener_passive : bool
}.

Definition same_listener (type : string) (callback : Callback) (l : Listener) : bool :=
  String.eqb (listener_type l) type && Callback_eqb (listener_callback l) callback.

(** The canvas as an event target, after the DOM standard:
    [addEventListener] appends unless the list already holds a listener
    with this type and callback, and does nothing for a missing callback. *)
Definition addEventListener (type : string) (callback : option Callback)
    (passive : bool) (listeners : list Listener) : list Listener :=
  match callback with
  | None => listeners
  | Some cb =>
      if List.existsb (same_listener type cb) listeners then listeners
      else listeners ++ [mkListener type cb passive]
  end.

Fixpoint remove_listener (type : string) (cb : Callback) (listeners : list Listener)
  : list Listener :=
  match listeners with
  | [] => []
  | l :: rest =>
      if same_listener type cb l then rest
      else l :: remove_listener type cb rest
  end.

(** [removeEventListener] removes the listener with this type and callback
    if there is one, and does nothing for a missing callback. *)
Definition removeEventListener (type : string) (callback : option Callback)
    (listeners : list Listener) : list Listener :=
  match callback with
  | None => listeners
  | Some cb => remove_listener type cb listeners
  end.

(** [Rectangle] of @pixi/core. *)
Record Rectangle := new_Rectangle { r_x : float; r_y : float; r_width : float; r_height : float }.

(** What [addListeners] reads and writes on the viewport itself. *)
Record Surface := mkSurface {
  eventMode : string;
  forceHitArea : option Rectangle;
  hitArea : option Rectangle;
  worldWidth : float;
  worldHeight : float
}.

(** The four optional function fields of the class. *)
Record Functions := mkFunctions {
  wheelFunction : option Callback;
  upFunction : option Callback;
  downFunction : option Callback;
  moveFunction : option Callback
}.

(** An [InputManager] in its surroundings: the viewport's own fields, the
    canvas's listener list, the function fields and the four state fields. *)
Record Installation := mkInstallation {
  the_surface : Surface;
  the_canvas : list Listener;
  the_functions : Functions;
  the_manager : InputManager
}.

(** [addListeners], statement by statement.  [self] identifies the
    receiver; [allowPreserveDragOutside] is
    [viewport.options.allowPreserveDragOutside]. *)
Definition addListeners (self : nat) (allowPreserveDragOutside : bool)
    (vp : Viewport.t) (w : Installation) : Installation :=
  let surface := the_surface w in
  let surface :=
    mkSurface "static" (forceHitArea surface) (hitArea surface)
              (worldWidth surface) (worldHeight surface) in
  let surface :=
    if negb (present (forceHitArea surface))
    then mkSurface (eventMode surface) (forceHitArea surface)
           (Some (new_Rectangle 0 0 (worldWidth surface) (worldHeight surface)))
           (worldWidth surface) (worldHeight surface)
    else surface in
  let fns := the_functions w in
  let canvas := the_canvas w in
  let fns :=
    mkFunctions (wheelFunction fns) (upFunction fns)
                (Some (mkCallback self method_down)) (moveFunction fns) in
  let canvas := addEventListener "pointerdown" (downFunction fns) true canvas in
  let '(fns, canvas) :=
    if allowPreserveDragOutside then (fns, canvas)
    else
      let fns :=
        mkFunctions (wheelFunction fns) (upFunction fns) (downFunction fns)
                    (Some (mkCallback self method_move)) in
      (fns, addEventListener "pointermove" (moveFunction fns) true canvas) in
  let fns :=
    mkFunctions (wheelFunction fns) (Some (mkCallback self method_up))
                (downFunction fns) (moveFunction fns) in
  let canvas := addEventListener "pointerup" (upFunction fns) true canvas in
  let canvas := addEventListener "pointercancel" (upFunction fns) true canvas in
  let canvas :=
    if negb allowPreserveDragOutside
    then addEventListener "pointerleave" (upFunction fns) true canvas
    else canvas in
  let fns :=
    mkFunctions (Some (mkCallback self method_handleWheel)) (upFunction fns)
                (downFunction fns) (moveFunction fns) in
  let canvas :=
    addEventListener "wheel" (wheelFunction fns)
      (Options.passiveWheel (Viewport.options vp)) canvas in
  mkInstallation surface canvas fns (set_isMouseDown (the_manager w) false).

(** The constructor: [touches = []], then [addListeners()].  Fields not yet
    assigned are [None] (and [false] for [isMouseDown]). *)
Definition new_InputManager (self : nat) (allowPreserveDragOutside : bool)
    (vp : Viewport.t) (surface : Surface) (canvas : list Listener) : Installation :=
  addListeners self allowPreserveDragOutside vp
    (mkInstallation surface canvas (mkFunctions None None None None)
                    (mkInputManager None false None [])).

Definition destroy (w : Installation) : Installation :=
  let fns := the_functions w in
  let canvas := the_canvas w in
  let canvas := removeEventListener "wheel" (wheelFunction fns) canvas in
  let canvas := removeEventListener "pointerdown" (downFunction fns) canvas in
  let canvas := removeEventListener "pointermove" (moveFunction fns) canvas in
  let canvas := removeEventListener "pointerup" (upFunction fns) canvas in
  let canvas := removeEventListener "pointercancel" (upFunction fns) canvas in
  let canvas := removeEventListener "pointerleave" (upFunction fns) canvas in
  mkInstallation (the_surface w) canvas fns (the_manager w).

(** No listener of the list was created by [self]. *)
Definition foreign_to (self : nat) (listeners : list Listener) : bool :=
  List.forallb (fun l => negb (Nat.eqb (owner (listener_callback l)) self)) listeners.

(** The listeners an [InputManager] attaches, in the order it attaches
    them. *)
Definition own_listeners (self : nat) (allowPreserveDragOutside passiveWheel : bool)
  : list Listener :=
  [mkListener "pointerdown" (mkCallback self method_down) true]
  ++ (if allowPreserveDragOutside then []
      else [mkListener "pointermove" (mkCallback self method_move) true])
  ++ [mkListener "pointerup" (mkCallback self method_up) true;
      mkListener "pointercancel" (mkCallback self method_up) true]
  ++ (if allowPreserveDragOutside then []
      else [mkListener "pointerleave" (mkCallback self method_up) true])
  ++ [mkListener "wheel" (mkCallback self method_handleWheel) passiveWheel].

(** ** More vocabulary *)

(** A down event that the viewport's guard lets through. *)
Definition handled_down (c : Call) : bool :=
  match c with
  | call_down vp _ => negb (ignored vp)
  | _ => false
  end.

(** An event (not [pause], not [clear]) that the guard stops. *)
Definition ignored_event (c : Call) : bool :=
  match c with
  | call_down vp _ | call_move vp _ | call_up vp _ => ignored vp
  | call_handleWheel vp _ => ignored vp
  | call_pause | call_clear => false
  end.

Definition is_wheel (c : Call) : bool :=
  match c with
  | call_handleWheel _ _ => true
  | _ => false
  end.

(** The mouse flag read off the history of calls: a handled mouse down sets
    it, a handled mouse up, [pause] and [clear] clear it. *)
Definition track_mouse (c : Call) (flag : bool) : bool :=
  match c with
  | call_down vp e => if ignored vp then flag else if is_touch e then flag else true
  | call_up vp e => if ignored vp then flag else if is_touch e then flag else false
  | call_pause | call_clear => false
  | call_move _ _ | call_handleWheel _ _ => flag
  end.

Fixpoint mouse_after (calls : list Call) (flag : bool) : bool :=
  match calls with
  | [] => flag
  | c :: rest => mouse_after rest (track_mouse c flag)
  end.

(** The calls on the plugin chain among some effects, in order. *)
Definition is_dispatch (eff : Effect) : bool :=
  match eff with
  | plugins_down _ | plugins_move _ | plugins_up _ | plugins_wheel _ => true
  | _ => false
  end.

(** The call on the plugin chain that a call owes: one per handled pointer
    event, one per handled wheel event over the visible rectangle. *)
Definition owed_dispatch (c : Call) : list Effect :=
  match c with
  | call_down vp e => if ignored vp then [] else [plugins_down e]
  | call_move vp e => if ignored vp then [] else [plugins_move e]
  | call_up vp e => if ignored vp then [] else [plugins_up e]
  | call_handleWheel vp e =>
      if ignored vp then []
      else
        let point := Viewport.toLocal vp (getPointerPosition vp e) in
        if PrimFloat.leb (Viewport.left vp) (p_x point)
           && PrimFloat.leb (p_x point) (Viewport.right vp)
           && PrimFloat.leb (Viewport.top vp) (p_y point)
           && PrimFloat.leb (p_y point) (Viewport.bottom vp)
        then [plugins_wheel e] else []
  | call_pause | call_clear => []
  end.

(** A pointer call after which [event.stopPropagation()] is due: the event
    is handled, the plugin chain's verdict is stop and the option is set. *)
Definition stops (c : Call) : bool :=
  match c with
  | call_down vp e =>
      negb (ignored vp) && PluginManager.down (Viewport.plugins vp) e
      && Options.stopPropagation (Viewport.options vp)
  | call_move vp e =>
      negb (ignored vp) && PluginManager.move (Viewport.plugins vp) e
      && Options.stopPropagation (Viewport.options vp)
  | call_up vp e =>
      negb (ignored vp) && PluginManager.up (Viewport.plugins vp) e
      && Options.stopPropagation (Viewport.options vp)
  | _ => false
  end.

(** The receiver while the mouse alone is down and the click is armed. *)
Definition mouse_armed_with (p : Point) : InputManager :=
  mkInputManager (Some true) true (Some p) [].

(** The click is disarmed, or armed on the reference point [p]. *)
Definition armed_only_on (p : Point) (this : InputManager) : Prop :=
  truthy (clickedAvailable this) = false \/ last this = Some p.

Definition sample_surface : Surface :=
  mkSurface "auto" None None 1000 800.

(** A listener somebody else attached to the canvas. *)
Definition sample_foreign : Listener :=
  mkListener "pointerdown" (mkCallback 7 method_down) false.

(** * Properties *)

(** ** Elementary facts about the registry *)

Section Registry.

Implicit Types (ts : list IViewportTouch.t) (this : InputManager) (id : Z).

Lemma count_nonneg this : 0 <= count this.
Proof. unfold count. destruct (isMouseDown this); lia. Qed.

Lemma count_zero this :
  count this = 0 <-> isMouseDown this = false /\ touches this = [].
Proof.
  unfold count. destruct (isMouseDown this), (touches this); simpl; split;
    intros; try lia; intuition congruence.
Qed.

Lemma get_from_present ts id :
  present (get_from ts id) = true <-> List.In id (ids ts).
Proof.
  induction ts as [|touch rest IH]; simpl.
  - split; [discriminate | tauto].
  - destruct (Z.eqb_spec (IViewportTouch.id touch) id) as [E|N]; simpl.
    + split; auto.
    + rewrite IH. split; [auto | intros [?|?]; [contradiction | assumption]].
Qed.

Lemma get_from_absent ts id :
  present (get_from ts id) = false <-> ~ List.In id (ids ts).
Proof.
  rewrite <- get_from_present. destruct (present (get_from ts id)); split;
    congruence.
Qed.

Lemma ids_app ts1 ts2 : ids (ts1 ++ ts2) = ids ts1 ++ ids ts2.
Proof. unfold ids. apply List.map_app. Qed.

Lemma splice_first_absent ts id :
  ~ List.In id (ids ts) -> splice_first ts id = ts.
Proof.
  induction ts as [|touch rest IH]; simpl; intros H; [reflexivity|].
  destruct (Z.eqb_spec (IViewportTouch.id touch) id) as [E|N].
  - exfalso. apply H. now left.
  - f_equal. apply IH. intros ?. apply H. now right.
Qed.

Lemma splice_first_In ts id j :
  List.In j (ids (splice_first ts id)) -> List.In j (ids ts).
Proof.
  induction ts as [|touch rest IH]; simpl; [tauto|].
  destruct (IViewportTouch.id touch =? id); simpl; intuition.
Qed.

Lemma splice_first_other ts id j :
  j <> id -> List.In j (ids ts) -> List.In j (ids (splice_first ts id)).
Proof.
  intros Hj. induction ts as [|touch rest IH]; simpl; [tauto|].
  destruct (Z.eqb_spec (IViewportTouch.id touch) id) as [E|N]; simpl.
  - intros [?|?]; [congruence | assumption].
  - intuition.
Qed.

Lemma splice_first_NoDup ts id :
  List.NoDup (ids ts) ->
  List.NoDup (ids (splice_first ts id)) /\ ~ List.In id (ids (splice_first ts id)).
Proof.
  induction ts as [|touch rest IH]; simpl; intros H.
  - split; [constructor | tauto].
  - apply List.NoDup_cons_iff in H as [Hnotin Hrest].
    destruct (Z.eqb_spec (IViewportTouch.id touch) id) as [E|N]; simpl.
    + subst id. split; assumption.
    + destruct (IH Hrest) as [IH1 IH2]. split.
      * constructor; [|assumption].
        intros Hin. apply Hnotin. eapply splice_first_In; eassumption.
      * intros [?|?]; [contradiction | auto].
Qed.

Lemma splice_first_length ts id :
  List.In id (ids ts) -> S (length (splice_first ts id)) = length ts.
Proof.
  induction ts as [|touch rest IH]; simpl; [tauto|].
  destruct (Z.eqb_spec (IViewportTouch.id touch) id) as [E|N]; simpl.
  - reflexivity.
  - intros [?|Hin]; [contradiction|]. now rewrite IH.
Qed.

End Registry.

(** ** Arithmetic of doubles *)

Section Doubles.

Lemma Prim2SF_one : Prim2SF 1%float = S754_finite false 4503599627370496 (-52).
Proof. reflexivity. Qed.

Lemma Prim2SF_zero : Prim2SF 0%float = S754_zero false.
Proof. reflexivity. Qed.

(** Subtracting [+0] changes nothing, also for [-0], infinities and NaN. *)
Lemma float_sub_0_r (f : float) : (f - 0)%float = f.
Proof.
  apply Prim2SF_inj. rewrite sub_spec, Prim2SF_zero.
  destruct (Prim2SF f) as [[|]|[|]| |s m e]; reflexivity.
Qed.

Lemma float_abs_opp (f : float) : PrimFloat.abs (- f) = PrimFloat.abs f.
Proof.
  apply Prim2SF_inj. rewrite !abs_spec, opp_spec.
  now destruct (Prim2SF f).
Qed.

(** The mantissa of [1] is [2^52]: multiplying by it appends 52 zero bits,
    which rounding shifts out again without loss. *)
Lemma iter_shr_1_zeros (m : positive) :
  iter_pos shr_1 52 (Build_shr_record (Zpos (4503599627370496 * m)) false false)
  = Build_shr_record (Zpos m) false false.
Proof. reflexivity. Qed.

Lemma digits2_pos_zeros (m : positive) :
  Zpos (digits2_pos (4503599627370496 * m)) = Zpos (digits2_pos m) + 52.
Proof. cbv [Pos.mul]. cbn [digits2_pos]. lia. Qed.

Lemma SFmul_1_r (x : spec_float) :
  valid_binary x = true ->
  SF64mul x (S754_finite false 4503599627370496 (-52)) = x.
Proof.
  destruct x as [s|s| |s m e]; intros Hv;
    [cbn; now rewrite xorb_false_r | cbn; now rewrite xorb_false_r
    | reflexivity |].
  unfold SF64mul, SFmul. rewrite xorb_false_r, Pos.mul_comm.
  cbn [SpecFloat.valid_binary] in Hv. unfold bounded in Hv.
  apply andb_true_iff in Hv as [Hc Hb]. unfold canonical_mantissa in Hc.
  apply Z.eqb_eq in Hc.
  unfold binary_round_aux, shr_fexp at 1.
  cbn [Zdigits2]. rewrite digits2_pos_zeros.
  replace (Z.pos (digits2_pos m) + 52 + (e + -52))
    with (Z.pos (digits2_pos m) + e) by lia.
  rewrite Hc. replace (e - (e + -52)) with 52 by lia.
  cbn [shr shr_record_of_loc]. rewrite iter_shr_1_zeros.
  cbn [shr_m loc_of_shr_record round_nearest_even].
  replace (e + -52 + 52) with e by lia.
  unfold shr_fexp. cbn [Zdigits2]. rewrite Hc, Z.sub_diag.
  cbn [shr shr_record_of_loc shr_m]. now rewrite Hb.
Qed.

(** Multiplying by [1] changes no double. *)
Lemma float_mul_1_r (f : float) : (f * 1)%float = f.
Proof.
  apply Prim2SF_inj. rewrite mul_spec, Prim2SF_one.
  apply SFmul_1_r, Prim2SF_valid.
Qed.

Lemma finite_nonzero_spec (w : float) :
  is_finite w = true -> is_zero w = false ->
  exists s m e, Prim2SF w = S754_finite s m e.
Proof.
  unfold is_finite, is_nan, is_infinity, is_zero.
  rewrite !FloatAxioms.eqb_spec, abs_spec.
  change (Prim2SF infinity) with (S754_infinity false).
  change (Prim2SF zero) with (S754_zero false).
  destruct (Prim2SF w) as [s|s| |s m e]; cbn; try discriminate.
  - destruct s; discriminate.
  - intros _ _. now exists s, m, e.
Qed.

Lemma div_eucl_shift (m : positive) :
  Z.div_eucl (Z.shiftl (Zpos m) 53) (Zpos m) = (9007199254740992, 0).
Proof.
  change (Z.shiftl (Zpos m) 53) with (9007199254740992 * Zpos m).
  pose proof (Z.div_mul 9007199254740992 (Zpos m)) as Hq.
  pose proof (Z.mod_mul 9007199254740992 (Zpos m)) as Hr.
  unfold Z.div, Z.modulo in Hq, Hr.
  destruct (Z.div_eucl (9007199254740992 * Z.pos m) (Z.pos m)) as [q r].
  rewrite Hq, Hr by discriminate. reflexivity.
Qed.

Lemma new_location_zero (n : Z) : new_location n 0 = loc_Exact.
Proof. unfold new_location. now destruct (Z.even n). Qed.

Lemma SFdiv_same s m e :
  SF64div (S754_finite s m e) (S754_finite s m e)
  = S754_finite false 4503599627370496 (-52).
Proof.
  unfold SF64div, SFdiv, SFdiv_core_binary.
  replace (Zdigits2 (Z.pos m) + e - (Zdigits2 (Z.pos m) + e)) with 0 by lia.
  rewrite Z.sub_diag.
  change (Z.min (fexp prec emax 0) 0) with (-53).
  change (0 - -53) with 53.
  cbv iota. rewrite div_eucl_shift, new_location_zero, xorb_nilpotent.
  reflexivity.
Qed.

(** A finite double other than zero divided by itself is exactly [1]. *)
Lemma float_div_same (w : float) :
  is_finite w = true -> is_zero w = false -> (w / w)%float = 1%float.
Proof.
  intros Hf Hz. destruct (finite_nonzero_spec w Hf Hz) as (s & m & e & Hw).
  apply Prim2SF_inj. rewrite div_spec, Hw, Prim2SF_one. apply SFdiv_same.
Qed.

(** An absolute value that is not NaN is at or above every double that is
    at or below zero. *)
Lemma float_leb_abs (th c : float) :
  is_nan c = false -> (th <=? 0)%float = true ->
  (th <=? PrimFloat.abs c)%float = true.
Proof.
  unfold is_nan.
  rewrite !leb_spec, FloatAxioms.eqb_spec, abs_spec, Prim2SF_zero.
  destruct (Prim2SF th) as [s|s| |s m e], (Prim2SF c) as [s'|s'| |s' m' e'];
    cbn; try discriminate; try reflexivity;
    try (destruct s; (discriminate || reflexivity)).
Qed.

(** No double is at or below NaN. *)
Lemma float_leb_nan (th c : float) :
  is_nan c = true -> (th <=? PrimFloat.abs c)%float = false.
Proof.
  unfold is_nan. rewrite leb_spec, FloatAxioms.eqb_spec, abs_spec.
  destruct (Prim2SF c) as [s'|s'| |s' m' e']; cbn.
  - discriminate.
  - destruct s'; discriminate.
  - intros _. now destruct (Prim2SF th).
  - unfold SFeqb, SFcompare.
    destruct s'; rewrite Z.compare_refl, Pos.compare_cont_refl; discriminate.
Qed.

End Doubles.

Lemma absent_or_inactive_spec plugin :
  absent_or_inactive plugin = negb (present_and_active plugin).
Proof. now destruct plugin. Qed.

(** ** The click-intent detector, one handler at a time *)

Section Handlers.

Variables (vp : Viewport.t) (e : PointerEvent).
Hypothesis handled : ignored vp = false.

Lemma down_handled this :
  down vp e this =
  (down_arm vp e (down_register e this),
   plugins_down e :: propagation vp (PluginManager.down (Viewport.plugins vp) e)).
Proof using handled. unfold down. now rewrite handled. Qed.

Lemma move_handled this :
  move vp e this =
  (move_track vp e this,
   plugins_move e :: propagation vp (PluginManager.move (Viewport.plugins vp) e)).
Proof using handled. unfold move. now rewrite handled. Qed.

Lemma up_handled this :
  up vp e this =
  (fst (up_resolve vp e (up_release e this)),
   plugins_up e :: snd (up_resolve vp e (up_release e this))
     ++ propagation vp (PluginManager.up (Viewport.plugins vp) e)).
Proof using handled.
  unfold up. rewrite handled.
  now destruct (up_resolve vp e (up_release e this)).
Qed.

End Handlers.

Lemma down_arm_registry vp e this :
  touches (down_arm vp e this) = touches this /\
  isMouseDown (down_arm vp e this) = isMouseDown this.
Proof.
  unfold down_arm.
  destruct (count this =? 1); [|now split].
  simpl. now destruct (absent_or_inactive _ && absent_or_inactive _).
Qed.

Lemma down_arm_count vp e this : count (down_arm vp e this) = count this.
Proof.
  unfold count. destruct (down_arm_registry vp e this) as [-> ->]. reflexivity.
Qed.

Lemma down_register_count e this : 1 <= count (down_register e this).
Proof.
  unfold down_register, count.
  destruct (String.eqb (pointerType e) "mouse"); simpl; [lia|].
  destruct (present (get this (pointerId e))) eqn:E; simpl.
  - apply get_from_present in E. unfold get in E.
    destruct (touches this); [destruct E|]. simpl.
    destruct (isMouseDown this); lia.
  - rewrite List.length_app. simpl. destruct (isMouseDown this); lia.
Qed.

(** C4. A handled down event that leaves [count()] at exactly 1 sets
    [clickedAvailable] to true iff neither the 'decelerate' nor the 'bounce'
    plugin is present and active (and to false otherwise); a handled down
    event that leaves [count()] above 1 sets it to false.  A handled down
    event always leaves [count()] at 1 or more. *)
Theorem down_sets_clickedAvailable vp e this :
  ignored vp = false ->
  let this' := fst (down vp e this) in
  (count this' = 1 ->
     clickedAvailable this' =
       Some (negb (present_and_active (decelerate_of vp))
             && negb (present_and_active (bounce_of vp)))) /\
  (1 < count this' -> clickedAvailable this' = Some false) /\
  1 <= count this'.
Proof.
  intros handled this'. subst this'. rewrite (down_handled vp e handled). simpl.
  rewrite down_arm_count.
  pose proof (down_register_count e this) as Hge.
  split; [|split]; [| |exact Hge]; intros Hc; unfold down_arm.
  - rewrite Hc. simpl. rewrite !absent_or_inactive_spec.
    unfold decelerate_of, bounce_of.
    now destruct (negb _ && negb _).
  - destruct (Z.eqb_spec (count (down_register e this)) 1); [lia|reflexivity].
Qed.

Lemma down_sets_clickedAvailable_witness :
  ignored sample_viewport = false /\
  clickedAvailable (fst (down sample_viewport (touch_at 1 3 4) constructed)) = Some true /\
  clickedAvailable (fst (down sample_viewport (touch_at 2 7 7) sample_pressed)) = Some false.
Proof.
  split; [reflexivity|]. split.
  - apply (down_sets_clickedAvailable sample_viewport (touch_at 1 3 4) constructed);
      reflexivity.
  - apply (down_sets_clickedAvailable sample_viewport (touch_at 2 7 7) sample_pressed);
      reflexivity.
Defined.

(** C5. While the click is armed ([clickedAvailable] true and a reference
    point recorded), a handled move event sets [clickedAvailable] to false
    iff the absolute value of the distance from the reference point, as
    [move] computes it, reaches the threshold on the x axis or on the y
    axis; otherwise the receiver stays as it is. *)
Theorem move_disarms_iff vp e this ref :
  ignored vp = false ->
  clickedAvailable this = Some true ->
  last this = Some ref ->
  let this' := fst (move vp e this) in
  (clickedAvailable this' = Some false <->
     (Viewport.threshold vp <=? PrimFloat.abs (clientX e - p_x ref))%float = true \/
     (Viewport.threshold vp <=? PrimFloat.abs (clientY e - p_y ref))%float = true) /\
  (clickedAvailable this' = Some false \/ this' = this).
Proof.
  intros handled Harmed Hlast this'. subst this'.
  rewrite (move_handled vp e handled). cbn [fst].
  unfold move_track, checkThreshold. rewrite Harmed, Hlast. cbn [truthy].
  destruct (Viewport.threshold vp <=? PrimFloat.abs (clientX e - p_x ref))%float,
           (Viewport.threshold vp <=? PrimFloat.abs (clientY e - p_y ref))%float;
    cbn [orb]; (split; [|auto]); rewrite ?Harmed; split; auto; try congruence.
  intros [?|?]; discriminate.
Qed.

(** From the press at (3,4) with threshold 5: a move to (3,9) disarms, a
    move to (7,8) does not; and a move from 0.1 to 5.1 disarms, because the
    difference of these two doubles is the double 5. *)
Lemma move_disarms_iff_witness :
  clickedAvailable (fst (move sample_viewport (touch_at 1 3 9) sample_pressed)) = Some false /\
  fst (move sample_viewport (touch_at 1 7 8) sample_pressed) = sample_pressed /\
  clickedAvailable
    (fst (move sample_viewport (touch_at 1 double_5_1 4)
            (fst (down sample_viewport (touch_at 1 double_0_1 4) constructed)))) = Some false.
Proof.
  split; [|split].
  - apply (move_disarms_iff sample_viewport (touch_at 1 3 9) sample_pressed
             (new_Point 3 4)); try reflexivity.
    right. reflexivity.
  - destruct (move_disarms_iff sample_viewport (touch_at 1 7 8) sample_pressed
                (new_Point 3 4) eq_refl eq_refl eq_refl) as [_ [H|H]].
    + discriminate H.
    + exact H.
  - apply (move_disarms_iff sample_viewport (touch_at 1 double_5_1 4)
             (fst (down sample_viewport (touch_at 1 double_0_1 4) constructed))
             (new_Point double_0_1 4)); try reflexivity.
    left. reflexivity.
Defined.

(** C9. A handled down event for a touch id that is already registered,
    arriving while [count()] is 1, leaves [touches] and the mouse flag as
    they are, overwrites [last] with the event's client coordinates and
    recomputes [clickedAvailable] from the indicators as they are now. *)
Theorem duplicate_down_rearms vp e this touch :
  ignored vp = false ->
  is_touch e = true ->
  get this (pointerId e) = Some touch ->
  count this = 1 ->
  let this' := fst (down vp e this) in
  touches this' = touches this /\
  isMouseDown this' = isMouseDown this /\
  count this' = 1 /\
  last this' = Some (new_Point (clientX e) (clientY e)) /\
  clickedAvailable this' =
    Some (negb (present_and_active (decelerate_of vp))
          && negb (present_and_active (bounce_of vp))).
Proof.
  intros handled Htouch Hget Hcount this'. subst this'.
  rewrite (down_handled vp e handled). simpl.
  assert (Hreg : down_register e this = this).
  { unfold down_register. unfold is_touch in Htouch.
    apply negb_true_iff in Htouch. rewrite Htouch, Hget. reflexivity. }
  rewrite Hreg. unfold down_arm. rewrite Hcount. simpl.
  rewrite !absent_or_inactive_spec. unfold decelerate_of, bounce_of.
  destruct (negb _ && negb _); simpl; repeat split; assumption.
Qed.

(** The same touch goes down a second time, elsewhere: the registry is
    untouched, the reference point moves from (3,4) to (50,60). *)
Lemma duplicate_down_rearms_witness :
  touches (fst (down sample_viewport (touch_at 1 50 60) sample_pressed))
    = touches sample_pressed /\
  last sample_pressed = Some (new_Point 3 4) /\
  last (fst (down sample_viewport (touch_at 1 50 60) sample_pressed))
    = Some (new_Point 50 60).
Proof.
  destruct (duplicate_down_rearms sample_viewport (touch_at 1 50 60) sample_pressed
              (IViewportTouch.mk 1 None) eq_refl eq_refl eq_refl eq_refl)
    as (Ht & _ & _ & Hl & _).
  split; [exact Ht|]. split; [reflexivity | exact Hl].
Defined.

(** ** The wheel gate *)

Lemma within_bounds_decide vp p :
  PrimFloat.leb (Viewport.left vp) (p_x p)
  && PrimFloat.leb (p_x p) (Viewport.right vp)
  && PrimFloat.leb (Viewport.top vp) (p_y p)
  && PrimFloat.leb (p_y p) (Viewport.bottom vp) = true
  <-> within_bounds vp p.
Proof.
  unfold within_bounds. rewrite !andb_true_iff. tauto.
Qed.

(** C3. For a wheel event handled while the viewport is neither paused nor
    invisible: the plugin chain's wheel handler is called (with this event)
    iff the mapped local point lies in the visible rectangle, borders
    included; outside the rectangle the handler has no effect at all; and
    preventDefault is called iff the chain was called, its verdict is stop
    and the wheel listener is not passive.  The receiver is never changed. *)
Theorem handleWheel_gate vp e this :
  ignored vp = false ->
  let point := Viewport.toLocal vp (getPointerPosition vp e) in
  let effects := snd (handleWheel vp e this) in
  (List.In (plugins_wheel e) effects <-> within_bounds vp point) /\
  (~ within_bounds vp point -> effects = []) /\
  (List.In event_preventDefault effects <->
     within_bounds vp point /\
     PluginManager.wheel (Viewport.plugins vp) e = true /\
     Options.passiveWheel (Viewport.options vp) = false) /\
  fst (handleWheel vp e this) = this.
Proof.
  intros handled point effects. subst effects. unfold handleWheel.
  rewrite handled. fold point.
  pose proof (within_bounds_decide vp point) as Hdec.
  destruct (PrimFloat.leb (Viewport.left vp) (p_x point)
            && PrimFloat.leb (p_x point) (Viewport.right vp)
            && PrimFloat.leb (Viewport.top vp) (p_y point)
            && PrimFloat.leb (p_y point) (Viewport.bottom vp)) eqn:Hin.
  - assert (Hw : within_bounds vp point) by now apply Hdec.
    cbn [fst snd]. split; [|split; [|split]].
    + split; [intros _; exact Hw | intros _; now left].
    + intros Hout. contradiction.
    + destruct (PluginManager.wheel (Viewport.plugins vp) e),
        (Options.passiveWheel (Viewport.options vp)); cbn [andb negb];
        split.
      all: try (intros (_ & Hs & Hp); discriminate).
      all: try (intros [H|[H|[]]]; discriminate H).
      all: try (intros [H|[]]; discriminate H).
      * intros _. split; [exact Hw | split; reflexivity].
      * intros _. right. now left.
    + reflexivity.
  - assert (Hw : ~ within_bounds vp point).
    { intros Hw. apply Hdec in Hw. discriminate Hw. }
    cbn [fst snd]. split; [|split; [|split]].
    + split; [intros [] | intros H; contradiction].
    + reflexivity.
    + split; [intros [] | intros (H & _); contradiction].
    + reflexivity.
Qed.

(** On the sample viewport (bounds [0,800]x[0,600], canvas shown at half
    size from (10,10)) a wheel event at screen (410,310) maps to the corner
    (800,600) and is let through; one at (411,310) is not. *)
Lemma handleWheel_gate_witness :
  List.In (plugins_wheel (mkWheelEvent 410 310))
          (snd (handleWheel sample_viewport (mkWheelEvent 410 310) constructed)) /\
  snd (handleWheel sample_viewport (mkWheelEvent 411 310) constructed) = [].
Proof.
  split.
  - apply (handleWheel_gate sample_viewport (mkWheelEvent 410 310) constructed);
      [reflexivity|].
    apply within_bounds_decide. reflexivity.
  - apply (handleWheel_gate sample_viewport (mkWheelEvent 411 310) constructed);
      [reflexivity|].
    intros H. apply within_bounds_decide in H. discriminate H.
Defined.

(** ** The coordinate mapper *)

(** C6. For every screen point [mapPositionToPoint] returns
    [(screen - rect.origin) * (backing / rect.size)] on each axis, computed
    in doubles, where [rect] is the bounding rectangle of a canvas with a
    parent and [{left:0, top:0, width:backingWidth, height:backingHeight}]
    for a detached one (the factor [resolutionMultiplier = 1] changes no
    double).  With backing size 800x600 shown as 400x300 at (10,10), screen
    (10,10) maps to local (0,0) and screen (410,310) to local (800,600). *)
Theorem mapPositionToPoint_spec vp x y :
  mapPositionToPoint vp x y
    = spec_mapScreenToLocal (Options.canvasElement (Viewport.options vp)) x y /\
  (Options.canvasElement (Viewport.options vp) = sample_canvas ->
   mapPositionToPoint vp 10 10 = new_Point 0 0 /\
   mapPositionToPoint vp 410 310 = new_Point 800 600).
Proof.
  split.
  - unfold mapPositionToPoint, spec_mapScreenToLocal, spec_rect.
    rewrite !float_mul_1_r.
    now destruct (Canvas.parentElement (Options.canvasElement (Viewport.options vp))).
  - intros Hcanvas. unfold mapPositionToPoint. rewrite Hcanvas.
    split; reflexivity.
Qed.

Lemma mapPositionToPoint_spec_witness :
  mapPositionToPoint sample_viewport 10 10 = new_Point 0 0 /\
  mapPositionToPoint sample_viewport 410 310 = new_Point 800 600.
Proof.
  apply (mapPositionToPoint_spec sample_viewport 0 0). reflexivity.
Defined.

(** ** The registry along a sequence of calls *)

Lemma run_app calls1 calls2 this :
  run (calls1 ++ calls2) this =
  (fst (run calls2 (fst (run calls1 this))),
   snd (run calls1 this) ++ snd (run calls2 (fst (run calls1 this)))).
Proof.
  revert this. induction calls1 as [|c rest IH]; intros this; simpl.
  - now destruct (run calls2 this).
  - destruct (step c this) as [this1 effects1]. rewrite IH.
    destruct (run rest this1) as [this2 effects2]. simpl.
    now rewrite List.app_assoc.
Qed.

Lemma run_cons c calls this :
  run (c :: calls) this =
  (fst (run calls (fst (step c this))),
   snd (step c this) ++ snd (run calls (fst (step c this)))).
Proof.
  cbn [run]. destruct (step c this) as [this1 effects1]. cbn [fst snd].
  now destruct (run calls this1).
Qed.

Lemma clicked_app effects1 effects2 :
  clicked (effects1 ++ effects2) = clicked effects1 ++ clicked effects2.
Proof.
  induction effects1 as [|eff rest IH]; simpl; [reflexivity|].
  destruct eff; simpl; now rewrite IH.
Qed.

Lemma up_resolve_registry vp e this :
  touches (fst (up_resolve vp e this)) = touches this /\
  isMouseDown (fst (up_resolve vp e this)) = isMouseDown this.
Proof.
  unfold up_resolve.
  destruct (truthy (clickedAvailable this) && (count this =? 0)), (last this);
    now split.
Qed.

Lemma move_track_registry vp e this :
  touches (move_track vp e this) = touches this /\
  isMouseDown (move_track vp e this) = isMouseDown this.
Proof.
  unfold move_track.
  destruct (truthy (clickedAvailable this)), (last this); try now split.
  now destruct (checkThreshold vp _ || checkThreshold vp _).
Qed.

(** What each call does to [touches]. *)
Lemma step_touches c this :
  touches (fst (step c this)) =
  match c with
  | call_down vp e =>
      if ignored vp then touches this else touches (down_register e this)
  | call_up vp e =>
      if ignored vp then touches this else touches (up_release e this)
  | call_pause | call_clear => []
  | call_move _ _ | call_handleWheel _ _ => touches this
  end.
Proof.
  destruct c as [vp e|vp e|vp e|vp e| |]; simpl; try reflexivity.
  - unfold down. destruct (ignored vp); [reflexivity|]. simpl.
    apply down_arm_registry.
  - unfold move. destruct (ignored vp); [reflexivity|]. simpl.
    apply move_track_registry.
  - unfold up. destruct (ignored vp); [reflexivity|].
    pose proof (up_resolve_registry vp e (up_release e this)) as [H _].
    destruct (up_resolve vp e (up_release e this)). exact H.
  - unfold handleWheel. destruct (ignored vp); [reflexivity|].
    now destruct (PrimFloat.leb _ _ && PrimFloat.leb _ _ && PrimFloat.leb _ _ && PrimFloat.leb _ _).
Qed.

Lemma down_register_touches e this :
  touches (down_register e this) =
  if is_touch e && negb (present (get this (pointerId e)))
  then touches this ++ [IViewportTouch.mk (pointerId e) None]
  else touches this.
Proof.
  unfold down_register, is_touch.
  destruct (String.eqb (pointerType e) "mouse"); simpl; [reflexivity|].
  now destruct (present (get this (pointerId e))).
Qed.

Lemma up_release_touches e this :
  touches (up_release e this) =
  if is_touch e then splice_first (touches this) (pointerId e) else touches this.
Proof.
  unfold up_release, is_touch.
  now destruct (String.eqb (pointerType e) "mouse").
Qed.

Lemma splice_first_set (ts : list IViewportTouch.t) (id : Z) :
  List.NoDup (ids ts) ->
  (list_to_set (ids (splice_first ts id)) : gset Z)
    = list_to_set (ids ts) ∖ {[ id ]}.
Proof.
  intros Hnd. apply set_eq. intros j.
  rewrite elem_of_difference, !elem_of_list_to_set, !list_elem_of_In,
    not_elem_of_singleton.
  destruct (splice_first_NoDup ts id Hnd) as [_ Hnotin].
  split.
  - intros Hin. split; [eapply splice_first_In; eassumption|].
    intros ->. contradiction.
  - intros [Hin Hne]. now apply splice_first_other.
Qed.

Lemma step_tracks c this registered :
  tracks this registered -> tracks (fst (step c this)) (track c registered).
Proof.
  intros [Hnd Hset]. unfold tracks. rewrite step_touches.
  destruct c as [vp e|vp e|vp e|vp e| |]; simpl; try (split; assumption).
  - destruct (ignored vp); [split; assumption|].
    rewrite down_register_touches.
    destruct (is_touch e); simpl; [|split; assumption].
    destruct (present (get this (pointerId e))) eqn:Hp; simpl.
    + split; [assumption|].
      apply get_from_present in Hp. subst registered.
      apply list_elem_of_In in Hp.
      apply (elem_of_list_to_set (C := gset Z)) in Hp.
      apply subseteq_union_1_L, singleton_subseteq_l, Hp.
    + apply get_from_absent in Hp. rewrite ids_app. simpl. split.
      * apply List.NoDup_app; repeat split; try assumption.
        -- constructor; [intros [] | constructor].
        -- intros j Hj [<-|[]]. contradiction.
      * subst registered. rewrite list_to_set_app_L. cbn [list_to_set].
        rewrite union_empty_r_L. apply union_comm_L.
  - destruct (ignored vp); [split; assumption|].
    rewrite up_release_touches.
    destruct (is_touch e); [|split; assumption].
    split; [now apply splice_first_NoDup|].
    subst registered. symmetry. now apply splice_first_set.
  - split; [constructor | reflexivity].
  - split; [constructor | reflexivity].
Qed.

Lemma run_tracks calls this registered :
  tracks this registered ->
  tracks (fst (run calls this)) (registered_after calls registered).
Proof.
  revert this registered.
  induction calls as [|c rest IH]; intros this registered H; [exact H|].
  rewrite run_cons. simpl. apply IH. now apply step_tracks.
Qed.

Lemma constructed_tracks : tracks constructed ∅.
Proof. split; [constructor | reflexivity]. Qed.

(** C8. After every sequence of calls on a fresh [InputManager] (touch and
    mouse downs and ups in any order and number, also ups for ids that
    never went down, moves, wheels, pauses and clears), [count()] is not
    negative and equals the number of distinct touch ids currently
    registered plus 1 if [isMouseDown] is set; moreover [touches] holds
    exactly those ids, each once. *)
Theorem count_tracks_registered (calls : list Call) :
  let this := fst (run calls constructed) in
  let registered := registered_after calls ∅ in
  0 <= count this /\
  count this = (if isMouseDown this then 1 else 0) + Z.of_nat (size registered) /\
  List.NoDup (ids (touches this)) /\
  registered = list_to_set (ids (touches this)).
Proof.
  intros this registered.
  destruct (run_tracks calls constructed ∅ constructed_tracks) as [Hnd Hset].
  fold this registered in Hnd, Hset.
  split; [apply count_nonneg|]. split; [|split; assumption].
  unfold count.
  rewrite Hset, size_list_to_set by (apply NoDup_ListNoDup; exact Hnd).
  unfold ids. now rewrite List.length_map.
Qed.

(** ** Duplicate registrations *)

Lemma step_keeps_id c this id :
  unregisters id c = false ->
  List.In id (ids (touches this)) ->
  List.In id (ids (touches (fst (step c this)))).
Proof.
  intros Hkeep Hin. rewrite step_touches.
  destruct c as [vp e|vp e|vp e|vp e| |]; simpl in Hkeep; try assumption;
    try discriminate.
  - destruct (ignored vp); [assumption|]. rewrite down_register_touches.
    destruct (is_touch e && negb (present (get this (pointerId e))));
      [|assumption].
    rewrite ids_app. apply List.in_or_app. now left.
  - destruct (ignored vp); [assumption|]. rewrite up_release_touches.
    destruct (is_touch e); [|assumption]. simpl in Hkeep.
    apply splice_first_other; [|assumption].
    intros ->. now rewrite Z.eqb_refl in Hkeep.
Qed.

Lemma run_keeps_id calls this id :
  List.forallb (fun c => negb (unregisters id c)) calls = true ->
  List.In id (ids (touches this)) ->
  List.In id (ids (touches (fst (run calls this)))).
Proof.
  revert this. induction calls as [|c rest IH]; intros this Hall Hin;
    [exact Hin|].
  simpl in Hall. apply andb_true_iff in Hall as [Hc Hrest].
  rewrite run_cons. cbn [fst]. apply IH; [assumption|].
  apply step_keeps_id; [|assumption]. now apply negb_true_iff.
Qed.

Lemma down_touches vp e this :
  ignored vp = false ->
  touches (fst (down vp e this)) =
  if is_touch e && negb (present (get this (pointerId e)))
  then touches this ++ [IViewportTouch.mk (pointerId e) None]
  else touches this.
Proof.
  intros handled.
  change (down vp e this) with (step (call_down vp e) this).
  now rewrite step_touches, handled, down_register_touches.
Qed.

Lemma down_registers vp e this :
  ignored vp = false -> is_touch e = true ->
  List.In (pointerId e) (ids (touches (fst (down vp e this)))).
Proof.
  intros handled Htouch.
  rewrite down_touches, Htouch by assumption.
  destruct (present (get this (pointerId e))) eqn:Hp; simpl.
  - now apply get_from_present in Hp.
  - rewrite ids_app. apply List.in_or_app. right. now left.
Qed.

Lemma contacts_with_unique (ts : list IViewportTouch.t) (id : Z) :
  List.NoDup (ids ts) -> List.In id (ids ts) ->
  length (List.filter (fun touch => IViewportTouch.id touch =? id) ts) = 1%nat.
Proof.
  induction ts as [|touch rest IH]; simpl; [intros _ []|].
  intros Hnd Hin. apply List.NoDup_cons_iff in Hnd as [Hnotin Hnd].
  destruct (Z.eqb_spec (IViewportTouch.id touch) id) as [E|N]; simpl.
  - subst id. f_equal.
    assert (Hnone : forall l, ~ List.In (IViewportTouch.id touch) (ids l) ->
              List.filter (fun t => IViewportTouch.id t =? IViewportTouch.id touch) l = []).
    { induction l as [|t l IHl]; simpl; [reflexivity|]. intros Hn.
      destruct (Z.eqb_spec (IViewportTouch.id t) (IViewportTouch.id touch)) as [E|N].
      - exfalso. apply Hn. now left.
      - apply IHl. intros ?. apply Hn. now right. }
    now rewrite Hnone.
  - destruct Hin as [?|Hin]; [contradiction|]. now apply IH.
Qed.

(** C7. Whatever happened before, once a touch down for some id has been
    handled and no call since has unregistered that id (no handled touch up
    for it, no pause, no clear), a second handled touch down for the same
    id leaves [touches] as it is, and [touches] holds exactly one contact
    with that id. *)
Theorem duplicate_down_registers_once
    (history middle : list Call) (vp1 vp2 : Viewport.t) (e1 e2 : PointerEvent) :
  ignored vp1 = false -> is_touch e1 = true ->
  ignored vp2 = false -> is_touch e2 = true ->
  pointerId e2 = pointerId e1 ->
  List.forallb (fun c => negb (unregisters (pointerId e1) c)) middle = true ->
  let before := fst (run (history ++ call_down vp1 e1 :: middle) constructed) in
  let after := fst (down vp2 e2 before) in
  touches after = touches before /\
  contacts_with (pointerId e1) before = 1%nat /\
  contacts_with (pointerId e1) after = 1%nat.
Proof.
  intros handled1 Htouch1 handled2 Htouch2 Hid Hmiddle before after.
  assert (Hnd : List.NoDup (ids (touches before))).
  { apply (run_tracks _ constructed ∅ constructed_tracks). }
  assert (Hin : List.In (pointerId e1) (ids (touches before))).
  { subst before. rewrite run_app. cbn [fst]. rewrite run_cons. cbn [fst].
    apply run_keeps_id; [assumption|].
    now apply (down_registers vp1 e1). }
  assert (Hsame : touches after = touches before).
  { subst after.
    rewrite down_touches, Htouch2, Hid by assumption.
    apply get_from_present in Hin. unfold get. now rewrite Hin. }
  split; [exact Hsame|]. unfold contacts_with. rewrite Hsame.
  split; now apply contacts_with_unique.
Qed.

(** Touch 1 goes down, moves, touch 2 goes down and up, touch 1 goes down
    again: one contact with id 1. *)
Lemma duplicate_down_registers_once_witness :
  contacts_with 1
    (fst (run [call_down sample_viewport (touch_at 1 3 4);
               call_move sample_viewport (touch_at 1 4 4);
               call_down sample_viewport (touch_at 2 9 9);
               call_up sample_viewport (touch_at 2 9 9);
               call_down sample_viewport (touch_at 1 4 4)] constructed)) = 1%nat.
Proof.
  apply (duplicate_down_registers_once []
           [call_move sample_viewport (touch_at 1 4 4);
            call_down sample_viewport (touch_at 2 9 9);
            call_up sample_viewport (touch_at 2 9 9)]
           sample_viewport sample_viewport (touch_at 1 3 4) (touch_at 1 4 4));
    reflexivity.
Defined.

(** ** A tap *)

Lemma clicked_propagation vp stop : clicked (propagation vp stop) = [].
Proof.
  unfold propagation.
  now destruct (stop && Options.stopPropagation (Viewport.options vp)).
Qed.

Lemma clicked_down vp e this : clicked (snd (down vp e this)) = [].
Proof.
  unfold down. destruct (ignored vp); [reflexivity|].
  cbn [snd clicked]. apply clicked_propagation.
Qed.

Lemma clicked_move vp e this : clicked (snd (move vp e this)) = [].
Proof.
  unfold move. destruct (ignored vp); [reflexivity|].
  cbn [snd clicked]. apply clicked_propagation.
Qed.

Lemma clicked_handleWheel vp e this : clicked (snd (handleWheel vp e this)) = [].
Proof.
  unfold handleWheel. destruct (ignored vp); [reflexivity|].
  destruct (PrimFloat.leb _ _ && PrimFloat.leb _ _ && PrimFloat.leb _ _ && PrimFloat.leb _ _);
    [|reflexivity].
  cbn [snd clicked].
  now destruct (PluginManager.wheel _ _ && negb _).
Qed.

Lemma down_arms vp e this :
  count this = 0 -> ignored vp = false -> is_touch e = true ->
  present_and_active (decelerate_of vp) = false ->
  present_and_active (bounce_of vp) = false ->
  fst (down vp e this)
    = armed_with (new_Point (clientX e) (clientY e)) (pointerId e).
Proof.
  intros Hidle handled Htouch Hdec Hbounce.
  apply count_zero in Hidle as [Hmouse Hnone].
  rewrite (down_handled vp e handled). cbn [fst].
  unfold is_touch in Htouch. apply negb_true_iff in Htouch.
  destruct this as [available mouse reference ts].
  cbn [isMouseDown touches] in Hmouse, Hnone. subst mouse ts.
  unfold down_register, get. rewrite Htouch. cbn [touches get_from present negb].
  unfold down_arm, count, set_touches.
  cbn [isMouseDown touches length app Z.of_nat Z.add Pos.of_succ_nat Z.eqb
       Pos.eqb].
  rewrite !absent_or_inactive_spec.
  unfold decelerate_of, bounce_of in Hdec, Hbounce. rewrite Hdec, Hbounce.
  reflexivity.
Qed.

Lemma moves_keep_armed ms x0 y0 id :
  List.Forall (below_threshold x0 y0) ms ->
  fst (run (moves_of ms) (armed_with (new_Point x0 y0) id))
    = armed_with (new_Point x0 y0) id /\
  clicked (snd (run (moves_of ms) (armed_with (new_Point x0 y0) id))) = [].
Proof.
  induction 1 as [|m rest Hm _ [IH1 IH2]]; [now split|].
  cbn [moves_of List.map]. fold (moves_of rest). rewrite run_cons.
  cbn [fst snd step]. rewrite clicked_app, clicked_move.
  assert (Hsame : fst (move (fst m) (snd m) (armed_with (new_Point x0 y0) id))
                  = armed_with (new_Point x0 y0) id).
  { unfold move. destruct (ignored (fst m)) eqn:Hign; [reflexivity|].
    destruct (Hm Hign) as [Hx Hy].
    cbn [fst]. unfold move_track, checkThreshold, armed_with.
    cbn [clickedAvailable last truthy p_x p_y]. now rewrite Hx, Hy. }
  rewrite Hsame. now split.
Qed.

Lemma up_resolves_tap vp e p :
  ignored vp = false -> is_touch e = true ->
  up vp e (armed_with p (pointerId e)) =
  (mkInputManager (Some false) false (Some p) [],
   plugins_up e :: emit_clicked (mkClicked e p (Viewport.toWorld vp p) vp)
     :: propagation vp (PluginManager.up (Viewport.plugins vp) e)).
Proof.
  intros handled Htouch. rewrite (up_handled vp e handled).
  unfold is_touch in Htouch. apply negb_true_iff in Htouch.
  unfold up_release. rewrite Htouch. cbn [negb].
  unfold remove, armed_with, set_touches.
  cbn [touches splice_first IViewportTouch.id]. rewrite Z.eqb_refl.
  reflexivity.
Qed.

(** C1. Start with nothing pressed.  A touch goes down while the viewport
    is neither paused nor invisible and neither 'decelerate' nor 'bounce' is
    present and active; then come any number of moves, each either ignored
    or with a distance from the down position that, as [move] computes it
    in doubles, does not reach the threshold on either axis; then the touch
    goes up, again handled.  No 'clicked' signal is emitted before
    the up event, the up event emits exactly one, and its screen point is
    the down event's client coordinates (its event is the up event, its
    world point the viewport's [toWorld] of the screen point). *)
Theorem tap_emits_one_clicked
    (this : InputManager) (vp_down vp_up : Viewport.t)
    (e_down e_up : PointerEvent) (ms : list (Viewport.t * PointerEvent)) :
  count this = 0 ->
  ignored vp_down = false -> is_touch e_down = true ->
  present_and_active (decelerate_of vp_down) = false ->
  present_and_active (bounce_of vp_down) = false ->
  List.Forall (below_threshold (clientX e_down) (clientY e_down)) ms ->
  ignored vp_up = false -> is_touch e_up = true ->
  pointerId e_up = pointerId e_down ->
  let p := new_Point (clientX e_down) (clientY e_down) in
  let signal := mkClicked e_up p (Viewport.toWorld vp_up p) vp_up in
  let pressed := run (call_down vp_down e_down :: moves_of ms) this in
  clicked (snd pressed) = [] /\
  clicked (snd (up vp_up e_up (fst pressed))) = [signal] /\
  clicked (snd (run (call_down vp_down e_down :: moves_of ms ++ [call_up vp_up e_up]) this))
    = [signal] /\
  screen signal = new_Point (clientX e_down) (clientY e_down).
Proof.
  intros Hidle handled_d Htouch_d Hdec Hbounce Hms handled_u Htouch_u Hid
    p signal pressed.
  destruct (moves_keep_armed ms (clientX e_down) (clientY e_down)
              (pointerId e_down) Hms) as [Hkeep Hquiet].
  assert (Hstate : fst pressed = armed_with p (pointerId e_down)).
  { subst pressed. rewrite run_cons. cbn [fst step].
    now rewrite down_arms. }
  assert (Hsilent : clicked (snd pressed) = []).
  { subst pressed. rewrite run_cons. cbn [snd step].
    rewrite clicked_app, clicked_down, down_arms by assumption.
    exact Hquiet. }
  assert (Hup : clicked (snd (up vp_up e_up (fst pressed))) = [signal]).
  { rewrite Hstate, <- Hid, up_resolves_tap by assumption.
    cbn [snd clicked]. now rewrite clicked_propagation. }
  split; [exact Hsilent|]. split; [exact Hup|]. split; [|reflexivity].
  change (call_down vp_down e_down :: moves_of ms ++ [call_up vp_up e_up])
    with ((call_down vp_down e_down :: moves_of ms) ++ [call_up vp_up e_up]).
  rewrite run_app. cbn [snd]. fold pressed.
  rewrite clicked_app, Hsilent, run_cons. cbn [snd step run].
  now rewrite List.app_nil_r, Hup.
Qed.

(** Touch 1 goes down at (3,4), wanders to (5,2) and (1,6), goes up at
    (2,5): one 'clicked' at screen (3,4). *)
Lemma tap_emits_one_clicked_witness :
  clicked (snd (run [call_down sample_viewport (touch_at 1 3 4);
                     call_move sample_viewport (touch_at 1 5 2);
                     call_move sample_viewport (touch_at 1 1 6);
                     call_up sample_viewport (touch_at 1 2 5)] constructed))
  = [mkClicked (touch_at 1 2 5) (new_Point 3 4) (new_Point 3 4) sample_viewport].
Proof.
  apply (tap_emits_one_clicked constructed sample_viewport sample_viewport
           (touch_at 1 3 4) (touch_at 1 2 5)
           [(sample_viewport, touch_at 1 5 2); (sample_viewport, touch_at 1 1 6)]);
    try reflexivity.
  repeat constructor.
Defined.

(** ** At most one 'clicked' per press sequence *)

Lemma up_release_idle e this : count this = 0 -> up_release e this = this.
Proof.
  intros Hidle. apply count_zero in Hidle as [Hmouse Hnone].
  destruct this as [available mouse reference ts].
  cbn [isMouseDown touches] in Hmouse, Hnone. subst mouse ts.
  unfold up_release. now destruct (String.eqb (pointerType e) "mouse").
Qed.

Lemma step_quiet c this :
  quiet this -> rearming c this = false ->
  quiet (fst (step c this)) /\ clicked (snd (step c this)) = [].
Proof.
  intros [Hoff Hidle] Hrearm.
  destruct c as [vp e|vp e|vp e|vp e| |]; cbn [step].
  - cbn [rearming] in Hrearm. rewrite Hidle in Hrearm. cbn in Hrearm.
    rewrite andb_true_r in Hrearm. apply negb_false_iff in Hrearm.
    unfold down. rewrite Hrearm. now repeat split.
  - rewrite clicked_move. split; [|reflexivity].
    unfold move. destruct (ignored vp); [now split|]. cbn [fst].
    unfold move_track. rewrite Hoff. now split.
  - unfold up. destruct (ignored vp); [now repeat split|].
    rewrite (up_release_idle e this Hidle). unfold up_resolve.
    rewrite Hoff. cbn [andb fst snd clicked app].
    rewrite clicked_propagation. now repeat split.
  - rewrite clicked_handleWheel. split; [|reflexivity].
    unfold handleWheel. destruct (ignored vp); [now split|].
    now destruct (PrimFloat.leb _ _ && PrimFloat.leb _ _ && PrimFloat.leb _ _ && PrimFloat.leb _ _).
  - split; [|reflexivity]. split; [exact Hoff | reflexivity].
  - split; [|reflexivity]. split; [exact Hoff | reflexivity].
Qed.

Lemma run_quiet calls this :
  quiet this -> no_rearming calls this = true ->
  clicked (snd (run calls this)) = [].
Proof.
  revert this. induction calls as [|c rest IH]; intros this Hq Hno;
    [reflexivity|].
  cbn [no_rearming] in Hno. apply andb_true_iff in Hno as [Hc Hrest].
  apply negb_true_iff in Hc.
  destruct (step_quiet c this Hq Hc) as [Hq' Hnone].
  rewrite run_cons. cbn [snd]. rewrite clicked_app, Hnone.
  now apply IH.
Qed.

(** An up event emits at most one signal, and when it emits it leaves
    [clickedAvailable] false with nothing pressed. *)
Lemma up_emits vp e this :
  clicked (snd (up vp e this)) = [] \/
  (exists signal, clicked (snd (up vp e this)) = [signal]) /\
  clickedAvailable (fst (up vp e this)) = Some false /\
  count (fst (up vp e this)) = 0.
Proof.
  unfold up. destruct (ignored vp); [now left|].
  unfold up_resolve.
  destruct (truthy (clickedAvailable (up_release e this))
            && (count (up_release e this) =? 0)) eqn:Hfire;
    [|left; cbn [snd clicked app]; apply clicked_propagation].
  destruct (last (up_release e this)) as [reference|];
    [|left; cbn [snd clicked app]; apply clicked_propagation].
  right. cbn [fst snd clicked app]. rewrite clicked_propagation.
  apply andb_true_iff in Hfire as [_ Hzero]. apply Z.eqb_eq in Hzero.
  split; [eexists; reflexivity|]. split; [reflexivity | exact Hzero].
Qed.

Lemma step_emits c this :
  clicked (snd (step c this)) = [] \/
  (exists signal, clicked (snd (step c this)) = [signal]) /\
  quiet (fst (step c this)).
Proof.
  destruct c as [vp e|vp e|vp e|vp e| |]; cbn [step].
  - left. apply clicked_down.
  - left. apply clicked_move.
  - destruct (up_emits vp e this) as [H|(Hone & Hoff & Hzero)]; [now left|].
    right. split; [exact Hone|]. split; [now rewrite Hoff | exact Hzero].
  - left. apply clicked_handleWheel.
  - now left.
  - now left.
Qed.

Lemma run_emits_at_most_once calls this :
  no_rearming calls this = true ->
  (length (clicked (snd (run calls this))) <= 1)%nat.
Proof.
  revert this. induction calls as [|c rest IH]; intros this Hno;
    [cbn; lia|].
  cbn [no_rearming] in Hno. apply andb_true_iff in Hno as [_ Hrest].
  rewrite run_cons. cbn [snd]. rewrite clicked_app, List.length_app.
  destruct (step_emits c this) as [Hnone|[[signal Hone] Hq]].
  - rewrite Hnone. now apply IH.
  - rewrite Hone, (run_quiet rest _ Hq Hrest). cbn. lia.
Qed.

(** C10. Run any calls from any state such that none of them is a handled
    down event arriving with [count()] at 0: at most one 'clicked' signal is
    emitted.  In particular a press sequence, that is a down event followed
    by such calls, emits at most one.  An up event that emits the signal
    leaves [clickedAvailable] false and [count()] at 0, and a handled down
    event arriving with [count()] at 0 leaves [count()] at 1. *)
Theorem clicked_at_most_once (calls : list Call) (this : InputManager) :
  no_rearming calls this = true ->
  (length (clicked (snd (run calls this))) <= 1)%nat /\
  (forall vp e before,
     no_rearming calls (fst (down vp e before)) = true ->
     (length (clicked (snd (run (call_down vp e :: calls) before))) <= 1)%nat) /\
  (forall vp e before,
     clicked (snd (up vp e before)) <> [] ->
     clickedAvailable (fst (up vp e before)) = Some false /\
     count (fst (up vp e before)) = 0) /\
  (forall c before,
     rearming c before = true -> count (fst (step c before)) = 1).
Proof.
  intros Hno. split; [now apply run_emits_at_most_once|]. split; [|split].
  - intros vp e before Hrest. rewrite run_cons. cbn [snd step].
    rewrite clicked_app, clicked_down. cbn [app].
    now apply run_emits_at_most_once.
  - intros vp e before Hfired.
    destruct (up_emits vp e before) as [H|(_ & Hoff & Hzero)];
      [contradiction | now split].
  - intros c before Hrearm.
    destruct c as [vp e| | | | |]; try discriminate Hrearm.
    cbn [rearming] in Hrearm. apply andb_true_iff in Hrearm as [Hh Hzero].
    apply negb_true_iff in Hh. apply Z.eqb_eq in Hzero.
    cbn [step]. rewrite (down_handled vp e Hh). cbn [fst].
    rewrite down_arm_count.
    apply count_zero in Hzero as [Hmouse Hnone].
    destruct before as [available mouse reference ts].
    cbn [isMouseDown touches] in Hmouse, Hnone. subst mouse ts.
    unfold down_register, get.
    now destruct (String.eqb (pointerType e) "mouse").
Qed.

(** The touch goes up twice after one down: the second up emits nothing. *)
Lemma clicked_at_most_once_witness :
  no_rearming [call_up sample_viewport (touch_at 1 3 4);
               call_up sample_viewport (touch_at 1 3 4)] sample_pressed = true /\
  (length (clicked (snd (run [call_up sample_viewport (touch_at 1 3 4);
                              call_up sample_viewport (touch_at 1 3 4)]
                             sample_pressed))) <= 1)%nat.
Proof.
  split; [reflexivity|].
  apply (clicked_at_most_once
           [call_up sample_viewport (touch_at 1 3 4);
            call_up sample_viewport (touch_at 1 3 4)] sample_pressed).
  reflexivity.
Defined.

(** ** [pause] and [clear] *)

Lemma step_without_reference c this :
  handled_down c = false -> last this = None ->
  last (fst (step c this)) = None /\ clicked (snd (step c this)) = [].
Proof.
  intros Hc Hlast.
  destruct c as [vp e|vp e|vp e|vp e| |]; cbn [step].
  - cbn [handled_down] in Hc. apply negb_false_iff in Hc.
    unfold down. rewrite Hc. now split.
  - rewrite clicked_move. split; [|reflexivity].
    unfold move. destruct (ignored vp); [exact Hlast|]. cbn [fst].
    unfold move_track. rewrite Hlast.
    now destruct (truthy (clickedAvailable this)).
  - unfold up. destruct (ignored vp); [now split|].
    assert (Hrel : last (up_release e this) = None).
    { unfold up_release.
      now destruct (String.eqb (pointerType e) "mouse"). }
    unfold up_resolve. rewrite Hrel.
    destruct (truthy _ && (_ =? 0)); cbn [fst snd clicked app];
      rewrite clicked_propagation; now split.
  - rewrite clicked_handleWheel. split; [|reflexivity].
    unfold handleWheel. destruct (ignored vp); [exact Hlast|].
    now destruct (PrimFloat.leb _ _ && PrimFloat.leb _ _ && PrimFloat.leb _ _ && PrimFloat.leb _ _).
  - now split.
  - now split.
Qed.

Lemma run_without_reference calls this :
  List.forallb (fun c => negb (handled_down c)) calls = true ->
  last this = None ->
  clicked (snd (run calls this)) = [].
Proof.
  revert this. induction calls as [|c rest IH]; intros this Hall Hlast;
    [reflexivity|].
  cbn [List.forallb] in Hall. apply andb_true_iff in Hall as [Hc Hrest].
  apply negb_true_iff in Hc.
  destruct (step_without_reference c this Hc Hlast) as [Hlast' Hnone].
  rewrite run_cons. cbn [snd]. rewrite clicked_app, Hnone.
  now apply IH.
Qed.

Lemma step_ignored c this :
  ignored_call c = true -> touches this = [] -> isMouseDown this = false ->
  snd (step c this) = [] /\
  touches (fst (step c this)) = [] /\ isMouseDown (fst (step c this)) = false.
Proof.
  intros Hc Hnone Hmouse.
  destruct c as [vp e|vp e|vp e|vp e| |]; cbn [ignored_call] in Hc;
    cbn [step]; unfold down, move, up, handleWheel; rewrite ?Hc;
    now repeat split.
Qed.

Lemma run_ignored calls this :
  List.forallb ignored_call calls = true ->
  touches this = [] -> isMouseDown this = false ->
  snd (run calls this) = [] /\ count (fst (run calls this)) = 0.
Proof.
  revert this. induction calls as [|c rest IH]; intros this Hall Hnone Hmouse.
  - split; [reflexivity|]. now apply count_zero.
  - cbn [List.forallb] in Hall. apply andb_true_iff in Hall as [Hc Hrest].
    destruct (step_ignored c this Hc Hnone Hmouse) as (Heff & Hnone' & Hmouse').
    rewrite run_cons. cbn [fst snd]. rewrite Heff.
    now apply IH.
Qed.

(** C2, as the code has it.  [pause()] and [clear()], called in any state,
    empty [touches] and clear the mouse flag ([count()] is 0), emit nothing
    themselves and leave [clickedAvailable] as it was.  [clear()] also sets
    [last] to absent, after which no 'clicked' is emitted until a down event
    is handled (down events that the guard ignores do not count).  After
    [pause()], calls that the viewport's pause or
    visibility guard ignores (and further pauses and clears) have no effect
    on collaborators and leave [count()] at 0. *)
Theorem pause_and_clear_reset (this : InputManager) :
  (touches (fst (pause this)) = [] /\
   isMouseDown (fst (pause this)) = false /\
   count (fst (pause this)) = 0 /\
   snd (pause this) = [] /\
   clickedAvailable (fst (pause this)) = clickedAvailable this) /\
  (touches (fst (clear this)) = [] /\
   isMouseDown (fst (clear this)) = false /\
   count (fst (clear this)) = 0 /\
   snd (clear this) = [] /\
   clickedAvailable (fst (clear this)) = clickedAvailable this /\
   last (fst (clear this)) = None) /\
  (forall rest,
     List.forallb (fun c => negb (handled_down c)) rest = true ->
     clicked (snd (run rest (fst (clear this)))) = []) /\
  (forall rest,
     List.forallb ignored_call rest = true ->
     snd (run rest (fst (pause this))) = [] /\
     count (fst (run rest (fst (pause this)))) = 0).
Proof.
  split; [now repeat split|]. split; [now repeat split|]. split.
  - intros rest Hrest. now apply run_without_reference.
  - intros rest Hrest. now apply run_ignored.
Qed.

(** After [clear()] in the middle of a press, a down event that the paused
    viewport ignores and the handled up event of the touch emit nothing. *)
Lemma pause_and_clear_reset_witness :
  clicked (snd (run [call_down sample_paused_viewport (touch_at 1 3 4);
                     call_up sample_viewport (touch_at 1 3 4)]
                    (fst (clear sample_pressed)))) = [].
Proof.
  apply (pause_and_clear_reset sample_pressed). reflexivity.
Defined.

(** C2 fails as stated.  Touch 1 goes down at (3,4) and arms the click;
    then [pause()] is called.  Afterwards [clickedAvailable] is still true
    and the reference point still (3,4), and once the viewport handles
    events again the up event of touch 1 emits 'clicked'.  After [clear()]
    in the same state [clickedAvailable] is still true as well. *)
Lemma pause_keeps_click_pending :
  clickedAvailable (fst (pause sample_pressed)) = Some true /\
  last (fst (pause sample_pressed)) = Some (new_Point 3 4) /\
  clicked (snd (run [call_pause; call_up sample_viewport (touch_at 1 3 4)]
                    sample_pressed))
    = [mkClicked (touch_at 1 3 4) (new_Point 3 4) (new_Point 3 4) sample_viewport] /\
  clickedAvailable (fst (clear sample_pressed)) = Some true.
Proof. repeat split; reflexivity. Qed.

(** ** The scenarios of the specification, evaluated *)

(** A viewport whose 'bounce' plugin is present and active. *)
Example bouncing_tap_is_not_a_click :
  let bouncing :=
    Viewport.mk false true 5 0 800 0 600 (fun p => p) (fun p => p)
      (PluginManager.mk
         (fun name => if String.eqb name "bounce" then Some (mkPlugin true) else None)
         (fun _ => false) (fun _ => false) (fun _ => false) (fun _ => false))
      (Options.mk true false sample_canvas) in
  clicked (snd (run [call_down bouncing (touch_at 1 3 4);
                     call_up bouncing (touch_at 1 3 4)] constructed)) = [].
Proof. reflexivity. Qed.

Example two_touches_are_not_a_click :
  clicked (snd (run [call_down sample_viewport (touch_at 1 3 4);
                     call_down sample_viewport (touch_at 2 30 40);
                     call_up sample_viewport (touch_at 1 3 4);
                     call_up sample_viewport (touch_at 2 30 40)] constructed)) = [].
Proof. reflexivity. Qed.

(** The threshold is 5: a move of 6 along x is a drag. *)
Example drag_is_not_a_click :
  clicked (snd (run [call_down sample_viewport (touch_at 1 3 4);
                     call_move sample_viewport (touch_at 1 9 4);
                     call_up sample_viewport (touch_at 1 9 4)] constructed)) = [].
Proof. reflexivity. Qed.

(** An up for an id that never went down changes nothing in the registry. *)
Example stray_up_is_harmless :
  fst (run [call_up sample_viewport (touch_at 7 0 0)] sample_pressed)
    = sample_pressed /\
  count (fst (run [call_up sample_viewport (touch_at 7 0 0)] constructed)) = 0.
Proof. split; reflexivity. Qed.

(** A mouse and a touch together count 2; a detached canvas maps screen
    points to themselves. *)
Example mouse_and_touch_count_two :
  count (fst (run [call_down sample_viewport (mkPointerEvent "mouse" 0 1 1);
                   call_down sample_viewport (touch_at 4 2 2)] constructed)) = 2.
Proof. reflexivity. Qed.

Example detached_canvas_maps_identically :
  spec_mapScreenToLocal (Canvas.mk None 800 600 (mkDOMRect 10 10 400 300)) 410 310
  = new_Point 410 310.
Proof. reflexivity. Qed.

(** Rounding is the code's: 5.1 - 0.1 is the double 5, so with threshold 5
    a press at x = 0.1 followed by a move to x = 5.1 is a drag. *)
Example rounded_distance_reaches_threshold :
  (double_5_1 - double_0_1)%float = 5%float /\
  clicked (snd (run [call_down sample_viewport (touch_at 1 double_0_1 4);
                     call_move sample_viewport (touch_at 1 double_5_1 4);
                     call_up sample_viewport (touch_at 1 double_5_1 4)] constructed)) = [].
Proof. split; reflexivity. Qed.

(** An 800-pixel canvas shown 183 pixels wide at offset 10: the right edge,
    screen x = 193, maps just above 800 and a wheel event there is dropped. *)
Example narrow_canvas_rounds_up :
  let vp :=
    Viewport.mk false true 5 0 800 0 600 (fun p => p) (fun p => p) no_plugins
      (Options.mk true false (Canvas.mk (Some tt) 800 600 (mkDOMRect 10 10 183 300))) in
  p_x (mapPositionToPoint vp 193 10) = 0x1.9000000000001p+9%float /\
  (800 <? p_x (mapPositionToPoint vp 193 10))%float = true /\
  snd (handleWheel vp (mkWheelEvent 193 10) constructed) = [].
Proof. repeat split; reflexivity. Qed.

(** A bounding rectangle of width 0 gives an infinite or NaN coordinate,
    and the wheel event is dropped. *)
Example empty_rectangle_maps_nowhere :
  let vp :=
    Viewport.mk false true 5 0 800 0 600 (fun p => p) (fun p => p) no_plugins
      (Options.mk true false (Canvas.mk (Some tt) 800 600 (mkDOMRect 10 10 0 300))) in
  p_x (mapPositionToPoint vp 20 10) = infinity /\
  is_nan (p_x (mapPositionToPoint vp 10 10)) = true /\
  snd (handleWheel vp (mkWheelEvent 20 10) constructed) = [] /\
  snd (handleWheel vp (mkWheelEvent 10 10) constructed) = [].
Proof. repeat split; reflexivity. Qed.

(** * Further properties of the code *)

(** ** Lookup, registration and removal *)

Lemma get_from_Some (ts : list IViewportTouch.t) (id : Z) touch :
  get_from ts id = Some touch ->
  IViewportTouch.id touch = id /\ List.In touch ts.
Proof.
  induction ts as [|t rest IH]; simpl; [discriminate|].
  destruct (Z.eqb_spec (IViewportTouch.id t) id) as [E|N].
  - intros [= <-]. split; [exact E | now left].
  - intros H. destruct (IH H) as [Hid Hin]. split; [exact Hid | now right].
Qed.

Lemma get_from_None (ts : list IViewportTouch.t) (id : Z) :
  get_from ts id = None <-> ~ List.In id (ids ts).
Proof.
  rewrite <- get_from_absent. destruct (get_from ts id); simpl; split;
    congruence.
Qed.

Lemma get_from_app (ts1 ts2 : list IViewportTouch.t) (id : Z) :
  get_from (ts1 ++ ts2) id =
  match get_from ts1 id with
  | Some touch => Some touch
  | None => get_from ts2 id
  end.
Proof.
  induction ts1 as [|t rest IH]; simpl; [reflexivity|].
  now destruct (IViewportTouch.id t =? id).
Qed.

Lemma get_from_splice_other (ts : list IViewportTouch.t) (id j : Z) :
  j <> id -> get_from (splice_first ts id) j = get_from ts j.
Proof.
  intros Hj. induction ts as [|t rest IH]; simpl; [reflexivity|].
  destruct (Z.eqb_spec (IViewportTouch.id t) id) as [E|N]; simpl.
  - destruct (Z.eqb_spec (IViewportTouch.id t) j); [congruence | reflexivity].
  - now rewrite IH.
Qed.

Lemma splice_first_filter (ts : list IViewportTouch.t) (id : Z) :
  List.NoDup (ids ts) ->
  splice_first ts id
    = List.filter (fun touch => negb (IViewportTouch.id touch =? id)) ts.
Proof.
  induction ts as [|t rest IH]; simpl; intros Hnd; [reflexivity|].
  apply List.NoDup_cons_iff in Hnd as [Hnotin Hnd].
  destruct (Z.eqb_spec (IViewportTouch.id t) id) as [E|N]; simpl.
  - subst id. symmetry. apply List.forallb_filter_id.
    apply List.forallb_forall. intros t' Hin. apply negb_true_iff.
    apply Z.eqb_neq. intros Heq. apply Hnotin. rewrite <- Heq.
    unfold ids. now apply List.in_map.
  - f_equal. now apply IH.
Qed.

Lemma up_registry vp e this :
  touches (fst (up vp e this)) =
    (if ignored vp then touches this
     else if is_touch e then splice_first (touches this) (pointerId e)
     else touches this) /\
  isMouseDown (fst (up vp e this)) =
    (if ignored vp then isMouseDown this
     else if is_touch e then isMouseDown this else false).
Proof.
  unfold up. destruct (ignored vp); [now split|].
  pose proof (up_resolve_registry vp e (up_release e this)) as [Ht Hm].
  destruct (up_resolve vp e (up_release e this)) as [this' emitted].
  cbn [fst] in *. rewrite Ht, Hm. unfold up_release, is_touch.
  now destruct (String.eqb (pointerType e) "mouse").
Qed.

Lemma down_registry vp e this :
  touches (fst (down vp e this)) =
    (if ignored vp then touches this
     else if is_touch e && negb (present (get this (pointerId e)))
     then touches this ++ [IViewportTouch.mk (pointerId e) None]
     else touches this) /\
  isMouseDown (fst (down vp e this)) =
    (if ignored vp then isMouseDown this
     else if is_touch e then isMouseDown this else true).
Proof.
  unfold down. destruct (ignored vp); [now split|]. cbn [fst].
  destruct (down_arm_registry vp e (down_register e this)) as [-> ->].
  rewrite down_register_touches. split; [reflexivity|].
  unfold down_register, is_touch.
  destruct (String.eqb (pointerType e) "mouse"); [reflexivity|].
  now destruct (present (get this (pointerId e))).
Qed.

(** X1. [get] after a handled touch down finds a contact with the event's id:
    the one that was there, or else a new one without last position pushed
    at the end of [touches]; lookups of other ids are not affected. *)
Theorem get_after_down vp e this :
  ignored vp = false -> is_touch e = true ->
  let after := fst (down vp e this) in
  (exists touch,
     get after (pointerId e) = Some touch /\
     IViewportTouch.id touch = pointerId e /\
     match get this (pointerId e) with
     | Some old => touch = old /\ touches after = touches this
     | None => touch = IViewportTouch.mk (pointerId e) None /\
               touches after = touches this ++ [touch]
     end) /\
  (forall j, j <> pointerId e -> get after j = get this j).
Proof.
  intros handled Htouch after.
  destruct (down_registry vp e this) as [Ht _]. fold after in Ht.
  rewrite handled, Htouch in Ht. unfold get in *. rewrite Ht. split.
  - destruct (get_from (touches this) (pointerId e)) as [old|] eqn:Hget;
      cbn [present negb andb].
    + exists old. destruct (get_from_Some _ _ _ Hget) as [Hid _].
      now repeat split.
    + exists (IViewportTouch.mk (pointerId e) None).
      rewrite get_from_app, Hget. cbn. rewrite Z.eqb_refl. now repeat split.
  - intros j Hj.
    destruct (present (get_from (touches this) (pointerId e)));
      cbn [negb andb]; [reflexivity|].
    rewrite get_from_app. destruct (get_from (touches this) j); [reflexivity|].
    cbn. destruct (Z.eqb_spec (pointerId e) j); [congruence | reflexivity].
Qed.

Lemma get_after_down_witness :
  get (fst (down sample_viewport (touch_at 2 7 7) sample_pressed)) 1
    = get sample_pressed 1.
Proof.
  apply (get_after_down sample_viewport (touch_at 2 7 7) sample_pressed);
    [reflexivity | reflexivity | discriminate].
Defined.

(** X2. After any history of calls on a fresh [InputManager], a handled touch
    up makes [get] of its id answer null, lowers [count()] by 1 if the id
    was registered and by 0 if not, and leaves lookups of other ids as they
    were. *)
Theorem get_after_up (history : list Call) vp e :
  ignored vp = false -> is_touch e = true ->
  let before := fst (run history constructed) in
  let after := fst (up vp e before) in
  get after (pointerId e) = None /\
  count after = count before - (if present (get before (pointerId e)) then 1 else 0) /\
  (forall j, j <> pointerId e -> get after j = get before j).
Proof.
  intros handled Htouch before after.
  destruct (up_registry vp e before) as [Ht Hm]. fold after in Ht, Hm.
  rewrite handled, Htouch in Ht, Hm.
  assert (Hnd : List.NoDup (ids (touches before))).
  { apply (run_tracks _ constructed ∅ constructed_tracks). }
  unfold get, count. rewrite Ht, Hm. split; [|split].
  - apply get_from_None. now apply splice_first_NoDup.
  - destruct (present (get_from (touches before) (pointerId e))) eqn:Hp.
    + apply get_from_present in Hp.
      rewrite <- (splice_first_length _ _ Hp). lia.
    + apply get_from_absent in Hp. rewrite splice_first_absent by exact Hp.
      lia.
  - intros j Hj. now apply get_from_splice_other.
Qed.

Lemma get_after_up_witness :
  get (fst (up sample_viewport (touch_at 1 3 4)
              (fst (run [call_down sample_viewport (touch_at 1 3 4)] constructed)))) 1
    = None.
Proof.
  apply (get_after_up [call_down sample_viewport (touch_at 1 3 4)]
           sample_viewport (touch_at 1 3 4)); reflexivity.
Defined.

(** X3. [remove] of an id that no contact has changes nothing; [remove] of an id
    that some contact has lowers [count()] by exactly 1; either way only
    [touches] changes and lookups of other ids are not affected. *)
Theorem remove_spec (this : InputManager) (id : Z) :
  (get this id = None -> remove this id = this) /\
  (present (get this id) = true -> count (remove this id) = count this - 1) /\
  (forall j, j <> id -> get (remove this id) j = get this j) /\
  isMouseDown (remove this id) = isMouseDown this /\
  last (remove this id) = last this /\
  clickedAvailable (remove this id) = clickedAvailable this.
Proof.
  unfold remove, get, count, set_touches. cbn. repeat split.
  - intros Hnone. apply get_from_None in Hnone.
    rewrite splice_first_absent by exact Hnone. now destruct this.
  - intros Hp. apply get_from_present in Hp.
    rewrite <- (splice_first_length _ _ Hp). lia.
  - intros j Hj. now apply get_from_splice_other.
Qed.

Lemma splice_first_app (before rest : list IViewportTouch.t) (id : Z) :
  ~ List.In id (ids before) ->
  splice_first (before ++ rest) id = before ++ splice_first rest id.
Proof.
  induction before as [|t before IH]; cbn [app splice_first ids List.map];
    intros Hnotin; [reflexivity|].
  destruct (Z.eqb_spec (IViewportTouch.id t) id) as [E|N].
  - exfalso. apply Hnotin. now left.
  - f_equal. apply IH. intros Hin. apply Hnotin. now right.
Qed.

(** X4. [remove] takes out the first contact with the id and no other: on a
    registry without duplicate ids it leaves exactly the contacts with
    another id, in their order; if two contacts carry the id, wherever they
    stand in [touches], only the first goes, the second stays in its place
    and [get] finds it. *)
Theorem remove_first_only (this : InputManager) (id : Z) :
  (List.NoDup (ids (touches this)) ->
   touches (remove this id)
     = List.filter (fun touch => negb (IViewportTouch.id touch =? id)) (touches this)) /\
  (forall before first between second rest,
     touches this = before ++ first :: between ++ second :: rest ->
     IViewportTouch.id first = id -> IViewportTouch.id second = id ->
     ~ List.In id (ids before) -> ~ List.In id (ids between) ->
     touches (remove this id) = before ++ between ++ second :: rest /\
     get (remove this id) id = Some second).
Proof.
  split.
  - intros Hnd. now apply splice_first_filter.
  - intros before first between second rest Hts Hfirst Hsecond Hb Hbt.
    unfold get, remove, set_touches. cbn [touches]. rewrite Hts.
    rewrite (splice_first_app _ _ _ Hb). cbn [splice_first].
    rewrite Hfirst, Z.eqb_refl. split; [reflexivity|].
    apply get_from_None in Hb, Hbt.
    rewrite get_from_app, Hb, get_from_app, Hbt. cbn [get_from].
    now rewrite Hsecond, Z.eqb_refl.
Qed.

(** Without duplicates, removing 2 from ids 1, 2, 3 leaves 1, 3.  With the
    id 2 registered twice around id 1, removing 2 leaves 1 and the second
    contact (the one with a last position), which [get] still finds. *)
Lemma remove_first_only_witness :
  touches (remove (mkInputManager None false None
                     [IViewportTouch.mk 1 None; IViewportTouch.mk 2 None;
                      IViewportTouch.mk 3 None]) 2)
  = [IViewportTouch.mk 1 None; IViewportTouch.mk 3 None] /\
  touches (remove (mkInputManager None false None
                     [IViewportTouch.mk 2 None; IViewportTouch.mk 1 None;
                      IViewportTouch.mk 2 (Some (new_Point 1 1))]) 2)
  = [IViewportTouch.mk 1 None; IViewportTouch.mk 2 (Some (new_Point 1 1))] /\
  get (remove (mkInputManager None false None
                 [IViewportTouch.mk 2 None; IViewportTouch.mk 1 None;
                  IViewportTouch.mk 2 (Some (new_Point 1 1))]) 2) 2
  = Some (IViewportTouch.mk 2 (Some (new_Point 1 1))).
Proof.
  split.
  - apply (remove_first_only
             (mkInputManager None false None
                [IViewportTouch.mk 1 None; IViewportTouch.mk 2 None;
                 IViewportTouch.mk 3 None]) 2).
    repeat constructor; cbn; intuition discriminate.
  - apply (proj2 (remove_first_only
                    (mkInputManager None false None
                       [IViewportTouch.mk 2 None; IViewportTouch.mk 1 None;
                        IViewportTouch.mk 2 (Some (new_Point 1 1))]) 2)
             [] (IViewportTouch.mk 2 None) [IViewportTouch.mk 1 None]
             (IViewportTouch.mk 2 (Some (new_Point 1 1))) []);
      try reflexivity; cbn; intuition discriminate.
Defined.

(** ** [count()] along events *)

(** X5. No event moves [count()] by more than one: a down event leaves it or
    raises it by 1, an up event leaves it or lowers it by 1, move and wheel
    events leave it; [pause] and [clear] bring it to 0. *)
Theorem count_moves_by_one (c : Call) (this : InputManager) :
  let after := fst (step c this) in
  match c with
  | call_down _ _ => count this <= count after <= count this + 1
  | call_up _ _ => count this - 1 <= count after <= count this
  | call_move _ _ | call_handleWheel _ _ => count after = count this
  | call_pause | call_clear => count after = 0
  end.
Proof.
  destruct c as [vp e|vp e|vp e|vp e| |]; cbn [step]; try reflexivity.
  - destruct (down_registry vp e this) as [Ht Hm]. unfold count.
    rewrite Ht, Hm.
    destruct (ignored vp); [lia|].
    destruct (is_touch e); cbn [andb].
    + destruct (negb (present (get this (pointerId e))));
        rewrite ?List.length_app; cbn [length]; lia.
    + destruct (isMouseDown this); lia.
  - pose proof (step_touches (call_move vp e) this) as Ht. cbn [step] in Ht.
    unfold move in *. destruct (ignored vp); [reflexivity|]. cbn [fst] in *.
    unfold count. destruct (move_track_registry vp e this) as [-> ->].
    reflexivity.
  - destruct (up_registry vp e this) as [Ht Hm]. unfold count.
    rewrite Ht, Hm.
    destruct (ignored vp); [lia|].
    destruct (is_touch e).
    + destruct (present (get this (pointerId e))) eqn:Hp.
      * apply get_from_present in Hp.
        rewrite <- (splice_first_length _ _ Hp). lia.
      * apply get_from_absent in Hp.
        rewrite splice_first_absent by exact Hp. lia.
    + destruct (isMouseDown this); lia.
  - unfold handleWheel. destruct (ignored vp); [reflexivity|].
    now destruct (PrimFloat.leb _ _ && PrimFloat.leb _ _ && PrimFloat.leb _ _ && PrimFloat.leb _ _).
Qed.

(** X6. A touch up for an id that is not registered, arriving while something
    is pressed, changes nothing in the receiver and emits no 'clicked'. *)
Theorem stray_up_changes_nothing vp e this :
  is_touch e = true -> get this (pointerId e) = None -> 1 <= count this ->
  fst (up vp e this) = this /\ clicked (snd (up vp e this)) = [].
Proof.
  intros Htouch Hnone Hpressed. unfold up.
  destruct (ignored vp); [now split|].
  assert (Hrel : up_release e this = this).
  { unfold up_release. unfold is_touch in Htouch.
    apply negb_true_iff in Htouch. rewrite Htouch. cbn [negb].
    unfold remove. apply get_from_None in Hnone.
    rewrite splice_first_absent by exact Hnone. now destruct this. }
  rewrite Hrel. unfold up_resolve.
  assert (Hz : (count this =? 0) = false) by (apply Z.eqb_neq; lia).
  rewrite Hz, andb_false_r. cbn [fst snd clicked app].
  now rewrite clicked_propagation.
Qed.

Lemma stray_up_changes_nothing_witness :
  fst (up sample_viewport (touch_at 7 0 0) sample_pressed) = sample_pressed /\
  clicked (snd (up sample_viewport (touch_at 7 0 0) sample_pressed)) = [].
Proof.
  apply (stray_up_changes_nothing sample_viewport (touch_at 7 0 0) sample_pressed);
    [reflexivity | reflexivity | vm_compute; discriminate].
Defined.

Lemma step_mouse c this :
  isMouseDown (fst (step c this)) = track_mouse c (isMouseDown this).
Proof.
  destruct c as [vp e|vp e|vp e|vp e| |]; cbn [step track_mouse];
    try reflexivity.
  - apply down_registry.
  - unfold move. destruct (ignored vp); [reflexivity|]. cbn [fst].
    apply move_track_registry.
  - apply up_registry.
  - unfold handleWheel. destruct (ignored vp); [reflexivity|].
    now destruct (PrimFloat.leb _ _ && PrimFloat.leb _ _ && PrimFloat.leb _ _ && PrimFloat.leb _ _).
Qed.

Lemma run_mouse calls this :
  isMouseDown (fst (run calls this)) = mouse_after calls (isMouseDown this).
Proof.
  revert this. induction calls as [|c rest IH]; intros this; [reflexivity|].
  rewrite run_cons. cbn [fst mouse_after]. now rewrite IH, step_mouse.
Qed.

(** X7. After every sequence of calls on a fresh [InputManager], [count()] is
    fixed by the history alone: 1 if the last handled mouse down came after
    the last handled mouse up, pause and clear (0 otherwise), plus the
    number of touch ids registered and not unregistered since. *)
Theorem count_from_history (calls : list Call) :
  let this := fst (run calls constructed) in
  isMouseDown this = mouse_after calls false /\
  count this = (if mouse_after calls false then 1 else 0)
               + Z.of_nat (size (registered_after calls ∅)).
Proof.
  intros this. pose proof (run_mouse calls constructed) as Hm.
  fold this in Hm. cbn [isMouseDown constructed] in Hm. split; [exact Hm|].
  destruct (run_tracks calls constructed ∅ constructed_tracks) as [Hnd Hset].
  fold this in Hnd, Hset. unfold count.
  rewrite Hm, Hset, size_list_to_set by (apply NoDup_ListNoDup; exact Hnd).
  unfold ids. now rewrite List.length_map.
Qed.

(** ** What does not produce a click *)

Lemma up_release_click e this :
  clickedAvailable (up_release e this) = clickedAvailable this /\
  last (up_release e this) = last this.
Proof.
  unfold up_release. now destruct (String.eqb (pointerType e) "mouse").
Qed.

Lemma step_not_arming c this :
  truthy (clickedAvailable this) = false -> handled_down c = false ->
  truthy (clickedAvailable (fst (step c this))) = false /\
  clicked (snd (step c this)) = [].
Proof.
  intros Hoff Hc.
  destruct c as [vp e|vp e|vp e|vp e| |]; cbn [step].
  - cbn [handled_down] in Hc. apply negb_false_iff in Hc.
    unfold down. rewrite Hc. now split.
  - rewrite clicked_move. split; [|reflexivity].
    unfold move. destruct (ignored vp); [exact Hoff|]. cbn [fst].
    unfold move_track. now rewrite Hoff.
  - unfold up. destruct (ignored vp); [now split|].
    destruct (up_release_click e this) as [Hca _].
    unfold up_resolve. rewrite Hca, Hoff. cbn [andb fst snd clicked app].
    rewrite clicked_propagation. rewrite Hca. now split.
  - rewrite clicked_handleWheel. split; [|reflexivity].
    unfold handleWheel. destruct (ignored vp); [exact Hoff|].
    now destruct (PrimFloat.leb _ _ && PrimFloat.leb _ _ && PrimFloat.leb _ _ && PrimFloat.leb _ _).
  - now split.
  - now split.
Qed.

Lemma run_not_arming calls this :
  truthy (clickedAvailable this) = false ->
  List.forallb (fun c => negb (handled_down c)) calls = true ->
  truthy (clickedAvailable (fst (run calls this))) = false /\
  clicked (snd (run calls this)) = [].
Proof.
  revert this. induction calls as [|c rest IH]; intros this Hoff Hall;
    [now split|].
  cbn [List.forallb] in Hall. apply andb_true_iff in Hall as [Hc Hrest].
  apply negb_true_iff in Hc.
  destruct (step_not_arming c this Hoff Hc) as [Hoff' Hnone].
  rewrite run_cons. cbn [fst snd]. rewrite clicked_app, Hnone.
  now apply IH.
Qed.

(** X8. Only a handled down event arms the click: from a state where
    [clickedAvailable] is not true, calls among which no down event is
    handled emit no 'clicked' and leave [clickedAvailable] not true. *)
Theorem only_down_arms (calls : list Call) (this : InputManager) :
  truthy (clickedAvailable this) = false ->
  List.forallb (fun c => negb (handled_down c)) calls = true ->
  clicked (snd (run calls this)) = [] /\
  truthy (clickedAvailable (fst (run calls this))) = false.
Proof.
  intros Hoff Hall. destruct (run_not_arming calls this Hoff Hall). now split.
Qed.

Lemma only_down_arms_witness :
  clicked (snd (run [call_move sample_viewport (touch_at 1 3 4);
                     call_up sample_viewport (touch_at 1 3 4);
                     call_up sample_viewport (mkPointerEvent "mouse" 0 3 4)]
                    constructed)) = [].
Proof.
  apply (only_down_arms
           [call_move sample_viewport (touch_at 1 3 4);
            call_up sample_viewport (touch_at 1 3 4);
            call_up sample_viewport (mkPointerEvent "mouse" 0 3 4)] constructed);
    reflexivity.
Defined.

Lemma down_arm_off vp e this :
  count this <> 1 \/
  present_and_active (decelerate_of vp) = true \/
  present_and_active (bounce_of vp) = true ->
  truthy (clickedAvailable (down_arm vp e this)) = false.
Proof.
  intros H. unfold down_arm.
  destruct (Z.eqb_spec (count this) 1) as [E|N]; [|reflexivity].
  rewrite !absent_or_inactive_spec. unfold decelerate_of, bounce_of in H.
  destruct H as [H|[H|H]]; [contradiction| |]; rewrite H; cbn;
    rewrite ?andb_false_r; reflexivity.
Qed.

(** X9. A handled down event that leaves more than one pointer pressed, or
    that finds 'decelerate' or 'bounce' present and active, starts no click:
    whatever follows, until the next handled down event no 'clicked' is
    emitted. *)
Theorem unarmed_down_never_clicks vp e (rest : list Call) (this : InputManager) :
  ignored vp = false ->
  1 < count (fst (down vp e this)) \/
  present_and_active (decelerate_of vp) = true \/
  present_and_active (bounce_of vp) = true ->
  List.forallb (fun c => negb (handled_down c)) rest = true ->
  clicked (snd (run (call_down vp e :: rest) this)) = [].
Proof.
  intros handled Hwhy Hrest.
  rewrite run_cons. cbn [snd step]. rewrite clicked_app, clicked_down.
  apply run_not_arming; [|exact Hrest].
  rewrite (down_handled vp e handled) in *. cbn [fst] in *.
  apply down_arm_off. rewrite down_arm_count in Hwhy.
  destruct Hwhy as [H|H]; [left; lia | right; exact H].
Qed.

(** Touch 1 is down; touch 2 goes down; both go up: no 'clicked'. *)
Lemma unarmed_down_never_clicks_witness :
  clicked (snd (run [call_down sample_viewport (touch_at 2 30 40);
                     call_up sample_viewport (touch_at 1 3 4);
                     call_up sample_viewport (touch_at 2 30 40)] sample_pressed)) = [].
Proof.
  apply (unarmed_down_never_clicks sample_viewport (touch_at 2 30 40)
           [call_up sample_viewport (touch_at 1 3 4);
            call_up sample_viewport (touch_at 2 30 40)] sample_pressed);
    [reflexivity | left; reflexivity | reflexivity].
Defined.

Lemma down_armed_only_on vp e this :
  ignored vp = false ->
  armed_only_on (new_Point (clientX e) (clientY e)) (fst (down vp e this)).
Proof.
  intros handled. rewrite (down_handled vp e handled). cbn [fst].
  unfold armed_only_on, down_arm.
  destruct (count (down_register e this) =? 1); [|now left].
  right. now destruct (absent_or_inactive _ && absent_or_inactive _).
Qed.

Lemma move_armed_only_on vp e this p :
  armed_only_on p this -> armed_only_on p (fst (move vp e this)).
Proof.
  intros H. unfold move. destruct (ignored vp); [exact H|]. cbn [fst].
  unfold armed_only_on, move_track in *.
  destruct (truthy (clickedAvailable this)) eqn:Hca; [|now left].
  destruct H as [H|H]; [discriminate|]. rewrite H.
  destruct (checkThreshold vp _ || checkThreshold vp _); [now left|].
  now right.
Qed.

Lemma moves_armed_only_on ms this p :
  armed_only_on p this -> armed_only_on p (fst (run (moves_of ms) this)).
Proof.
  revert this. induction ms as [|m rest IH]; intros this H; [exact H|].
  cbn [moves_of List.map]. fold (moves_of rest). rewrite run_cons.
  cbn [fst step]. apply IH. now apply move_armed_only_on.
Qed.

Lemma clicked_moves ms this : clicked (snd (run (moves_of ms) this)) = [].
Proof.
  revert this. induction ms as [|m rest IH]; intros this; [reflexivity|].
  cbn [moves_of List.map]. fold (moves_of rest). rewrite run_cons.
  cbn [snd step]. now rewrite clicked_app, clicked_move, IH.
Qed.

Lemma move_beyond_threshold_disarms vp e this p :
  armed_only_on p this -> ignored vp = false ->
  (Viewport.threshold vp <=? PrimFloat.abs (clientX e - p_x p))%float = true \/
  (Viewport.threshold vp <=? PrimFloat.abs (clientY e - p_y p))%float = true ->
  truthy (clickedAvailable (fst (move vp e this))) = false.
Proof.
  intros H handled Hfar. rewrite (move_handled vp e handled). cbn [fst].
  unfold move_track.
  destruct (truthy (clickedAvailable this)) eqn:Hca; [|exact Hca].
  destruct H as [H|H]; [congruence|]. rewrite H.
  unfold checkThreshold.
  destruct Hfar as [-> | ->]; rewrite ?orb_true_r; reflexivity.
Qed.

(** X10. A drag is not a click.  After a handled down event, whatever the state
    before and whatever moves come first, a handled move whose distance from
    the down position, as [move] computes it in doubles, reaches the
    threshold on the x axis or on the y axis rules the click out: no 'clicked' is emitted until the next handled down
    event. *)
Theorem drag_never_clicks
    vp_down e_down (ms : list (Viewport.t * PointerEvent)) vp_move e_move
    (rest : list Call) (this : InputManager) :
  ignored vp_down = false -> ignored vp_move = false ->
  (Viewport.threshold vp_move <=? PrimFloat.abs (clientX e_move - clientX e_down))%float = true \/
  (Viewport.threshold vp_move <=? PrimFloat.abs (clientY e_move - clientY e_down))%float = true ->
  List.forallb (fun c => negb (handled_down c)) rest = true ->
  clicked (snd (run (call_down vp_down e_down
                       :: moves_of ms ++ call_move vp_move e_move :: rest) this)) = [].
Proof.
  intros handled_d handled_m Hfar Hrest.
  rewrite run_cons. cbn [snd step]. rewrite clicked_app, clicked_down.
  rewrite run_app. cbn [snd app]. rewrite clicked_app, clicked_moves.
  rewrite run_cons. cbn [snd step app]. rewrite clicked_app, clicked_move.
  apply run_not_arming; [|exact Hrest].
  apply (move_beyond_threshold_disarms _ _ _
           (new_Point (clientX e_down) (clientY e_down)));
    [|assumption|exact Hfar].
  apply moves_armed_only_on. now apply down_armed_only_on.
Qed.

(** Touch 1 goes down at (3,4), moves to (4,4), then to (3,9), back to
    (3,4) and goes up: no 'clicked'. *)
Lemma drag_never_clicks_witness :
  clicked (snd (run [call_down sample_viewport (touch_at 1 3 4);
                     call_move sample_viewport (touch_at 1 4 4);
                     call_move sample_viewport (touch_at 1 3 9);
                     call_move sample_viewport (touch_at 1 3 4);
                     call_up sample_viewport (touch_at 1 3 4)] constructed)) = [].
Proof.
  apply (drag_never_clicks sample_viewport (touch_at 1 3 4)
           [(sample_viewport, touch_at 1 4 4)] sample_viewport (touch_at 1 3 9)
           [call_move sample_viewport (touch_at 1 3 4);
            call_up sample_viewport (touch_at 1 3 4)] constructed);
    try reflexivity.
  right. reflexivity.
Defined.

(** ** A mouse click *)

Lemma moves_keep_state ms this x0 y0 :
  clickedAvailable this = Some true -> last this = Some (new_Point x0 y0) ->
  List.Forall (below_threshold x0 y0) ms ->
  fst (run (moves_of ms) this) = this.
Proof.
  intros Hca Hlast. induction 1 as [|m rest Hm _ IH]; [reflexivity|].
  cbn [moves_of List.map]. fold (moves_of rest). rewrite run_cons.
  cbn [fst step].
  assert (Hsame : fst (move (fst m) (snd m) this) = this).
  { unfold move. destruct (ignored (fst m)) eqn:Hign; [reflexivity|].
    destruct (Hm Hign) as [Hx Hy].
    cbn [fst]. unfold move_track, checkThreshold. rewrite Hca, Hlast.
    cbn [truthy p_x p_y]. now rewrite Hx, Hy. }
  now rewrite Hsame.
Qed.

Lemma down_arms_mouse vp e this :
  count this = 0 -> ignored vp = false -> is_touch e = false ->
  present_and_active (decelerate_of vp) = false ->
  present_and_active (bounce_of vp) = false ->
  fst (down vp e this) = mouse_armed_with (new_Point (clientX e) (clientY e)).
Proof.
  intros Hidle handled Hmouse Hdec Hbounce.
  apply count_zero in Hidle as [Hflag Hnone].
  rewrite (down_handled vp e handled). cbn [fst].
  unfold is_touch in Hmouse. apply negb_false_iff in Hmouse.
  destruct this as [available mouse reference ts].
  cbn [isMouseDown touches] in Hflag, Hnone. subst mouse ts.
  unfold down_register. rewrite Hmouse.
  unfold down_arm, count, set_isMouseDown.
  cbn [isMouseDown touches length Z.of_nat Z.add Z.eqb Pos.eqb].
  rewrite !absent_or_inactive_spec.
  unfold decelerate_of, bounce_of in Hdec, Hbounce. rewrite Hdec, Hbounce.
  reflexivity.
Qed.

(** X11. A mouse click.  Start with nothing pressed.  The mouse goes down
    (handled, neither 'decelerate' nor 'bounce' present and active), moves
    follow that are each ignored or with a distance from the down position
    that, as [move] computes it in doubles, does not reach the threshold on
    either axis, and a handled mouse up arrives: exactly one 'clicked' is emitted, by the up
    event, carrying the down position; nothing stays pressed. *)
Theorem mouse_click_emits_one_clicked
    (this : InputManager) (vp_down vp_up : Viewport.t)
    (e_down e_up : PointerEvent) (ms : list (Viewport.t * PointerEvent)) :
  count this = 0 ->
  ignored vp_down = false -> is_touch e_down = false ->
  present_and_active (decelerate_of vp_down) = false ->
  present_and_active (bounce_of vp_down) = false ->
  List.Forall (below_threshold (clientX e_down) (clientY e_down)) ms ->
  ignored vp_up = false -> is_touch e_up = false ->
  let p := new_Point (clientX e_down) (clientY e_down) in
  let result :=
    run (call_down vp_down e_down :: moves_of ms ++ [call_up vp_up e_up]) this in
  clicked (snd result) = [mkClicked e_up p (Viewport.toWorld vp_up p) vp_up] /\
  count (fst result) = 0.
Proof.
  intros Hidle handled_d Hmouse_d Hdec Hbounce Hms handled_u Hmouse_u p result.
  subst result. rewrite run_cons. cbn [fst snd step].
  rewrite clicked_app, clicked_down, down_arms_mouse by assumption.
  fold p. rewrite run_app. cbn [fst snd app].
  rewrite clicked_app, clicked_moves.
  rewrite (moves_keep_state ms (mouse_armed_with p) (clientX e_down) (clientY e_down))
    by (try reflexivity; assumption).
  rewrite run_cons. cbn [fst snd step run app].
  rewrite List.app_nil_r, (up_handled vp_up e_up handled_u).
  unfold is_touch in Hmouse_u. apply negb_false_iff in Hmouse_u.
  unfold up_release. rewrite Hmouse_u. cbn [negb fst snd].
  change (up_resolve vp_up e_up (set_isMouseDown (mouse_armed_with p) false))
    with (mkInputManager (Some false) false (Some p) [],
          [emit_clicked (mkClicked e_up p (Viewport.toWorld vp_up p) vp_up)]).
  cbn [fst snd clicked app]. rewrite clicked_propagation. now split.
Qed.

Lemma mouse_click_emits_one_clicked_witness :
  clicked (snd (run [call_down sample_viewport (mkPointerEvent "mouse" 0 3 4);
                     call_move sample_viewport (mkPointerEvent "mouse" 0 4 5);
                     call_up sample_viewport (mkPointerEvent "mouse" 0 4 5)]
                    constructed))
  = [mkClicked (mkPointerEvent "mouse" 0 4 5) (new_Point 3 4) (new_Point 3 4)
       sample_viewport].
Proof.
  apply (mouse_click_emits_one_clicked constructed sample_viewport sample_viewport
           (mkPointerEvent "mouse" 0 3 4) (mkPointerEvent "mouse" 0 4 5)
           [(sample_viewport, mkPointerEvent "mouse" 0 4 5)]);
    try reflexivity.
  repeat constructor.
Defined.

(** ** Where a 'clicked' signal comes from *)

Lemma step_last_cases c this :
  last (fst (step c this)) = last this \/
  last (fst (step c this)) = None \/
  exists vp e, c = call_down vp e /\ ignored vp = false /\
    last (fst (step c this)) = Some (new_Point (clientX e) (clientY e)).
Proof.
  destruct c as [vp e|vp e|vp e|vp e| |]; cbn [step].
  - unfold down. destruct (ignored vp) eqn:Hign; [now left|]. cbn [fst].
    unfold down_arm.
    destruct (count (down_register e this) =? 1).
    + right. right. exists vp, e.
      now destruct (absent_or_inactive _ && absent_or_inactive _).
    + left. cbn. unfold down_register.
      destruct (String.eqb (pointerType e) "mouse"); [reflexivity|].
      now destruct (negb (present (get this (pointerId e)))).
  - left. unfold move. destruct (ignored vp); [reflexivity|]. cbn [fst].
    unfold move_track.
    destruct (truthy (clickedAvailable this)); [|reflexivity].
    destruct (last this) eqn:Hl; [|now rewrite Hl].
    destruct (checkThreshold vp _ || checkThreshold vp _); cbn;
      now rewrite ?Hl.
  - left. unfold up. destruct (ignored vp); [reflexivity|].
    destruct (up_release_click e this) as [_ Hl]. rewrite <- Hl.
    unfold up_resolve.
    destruct (truthy _ && (_ =? 0)); [|reflexivity].
    destruct (last (up_release e this)) eqn:E; cbn; now rewrite ?E.
  - left. unfold handleWheel. destruct (ignored vp); [reflexivity|].
    now destruct (PrimFloat.leb _ _ && PrimFloat.leb _ _ && PrimFloat.leb _ _ && PrimFloat.leb _ _).
  - now left.
  - right. now left.
Qed.

Lemma step_last c this (Q : Point -> Prop) :
  (forall p, last this = Some p -> Q p) ->
  (forall vp e, c = call_down vp e -> ignored vp = false ->
                Q (new_Point (clientX e) (clientY e))) ->
  forall p, last (fst (step c this)) = Some p -> Q p.
Proof.
  intros Hold Hnew p Hp.
  destruct (step_last_cases c this) as [H|[H|(vp & e & Hc & Hh & H)]];
    rewrite H in Hp.
  - now apply Hold.
  - discriminate Hp.
  - injection Hp as <-. now apply (Hnew vp e).
Qed.

Lemma step_signal c this signal :
  List.In signal (clicked (snd (step c this))) ->
  c = call_up (viewport signal) (event signal) /\
  ignored (viewport signal) = false /\
  last this = Some (screen signal) /\
  world signal = Viewport.toWorld (viewport signal) (screen signal).
Proof.
  destruct c as [vp e|vp e|vp e|vp e| |]; cbn [step].
  - now rewrite clicked_down.
  - now rewrite clicked_move.
  - unfold up. destruct (ignored vp) eqn:Hign; [intros []|].
    destruct (up_release_click e this) as [_ Hl].
    unfold up_resolve.
    destruct (truthy _ && (_ =? 0)), (last (up_release e this)) eqn:Hl';
      cbn [fst snd clicked app]; rewrite ?clicked_propagation.
    + intros [<-|[]]. cbn. rewrite <- Hl. now repeat split.
    + intros [].
    + intros [].
    + intros [].
  - now rewrite clicked_handleWheel.
  - intros [].
  - intros [].
Qed.

Lemma run_signal (Q : Point -> Prop) calls this signal :
  (forall p, last this = Some p -> Q p) ->
  (forall vp e, List.In (call_down vp e) calls -> ignored vp = false ->
                Q (new_Point (clientX e) (clientY e))) ->
  List.In signal (clicked (snd (run calls this))) ->
  Q (screen signal) /\
  List.In (call_up (viewport signal) (event signal)) calls /\
  ignored (viewport signal) = false /\
  world signal = Viewport.toWorld (viewport signal) (screen signal).
Proof.
  revert this. induction calls as [|c rest IH]; intros this Hold Hnew;
    [intros []|].
  rewrite run_cons. cbn [snd]. rewrite clicked_app.
  intros Hin. apply List.in_app_or in Hin as [Hin|Hin].
  - destruct (step_signal c this signal Hin) as (-> & Hh & Hl & Hw).
    split; [now apply Hold|]. split; [now left|]. now split.
  - destruct (IH (fst (step c this))) as (HQ & Hup & Hrest); try assumption.
    + apply step_last; [exact Hold|].
      intros vp e -> Hh. apply (Hnew vp e); [now left | exact Hh].
    + intros vp e Hd Hh. apply (Hnew vp e); [now right | exact Hh].
    + split; [exact HQ|]. split; [now right | exact Hrest].
Qed.

(** X12. Every 'clicked' signal emitted in the life of an [InputManager] carries
    as screen point the client position of a handled down event of the
    history, as event a handled up event of the history with the viewport
    of that call, and as world point that viewport's [toWorld] of the
    screen point. *)
Theorem clicked_signal_provenance (calls : list Call) (signal : ClickedEvent) :
  List.In signal (clicked (snd (run calls constructed))) ->
  (exists vp e,
     List.In (call_down vp e) calls /\ ignored vp = false /\
     screen signal = new_Point (clientX e) (clientY e)) /\
  List.In (call_up (viewport signal) (event signal)) calls /\
  ignored (viewport signal) = false /\
  world signal = Viewport.toWorld (viewport signal) (screen signal).
Proof.
  intros Hin.
  apply (run_signal
           (fun p => exists vp e,
              List.In (call_down vp e) calls /\ ignored vp = false /\
              p = new_Point (clientX e) (clientY e))
           calls constructed signal); [discriminate | | exact Hin].
  intros vp e Hd Hh. now exists vp, e.
Qed.

Lemma clicked_signal_provenance_witness :
  List.In (mkClicked (touch_at 1 2 5) (new_Point 3 4) (new_Point 3 4) sample_viewport)
    (clicked (snd (run [call_down sample_viewport (touch_at 1 3 4);
                        call_up sample_viewport (touch_at 1 2 5)] constructed))) /\
  List.In (call_up sample_viewport (touch_at 1 2 5))
    [call_down sample_viewport (touch_at 1 3 4);
     call_up sample_viewport (touch_at 1 2 5)].
Proof.
  split; [left; reflexivity|].
  apply (clicked_signal_provenance
           [call_down sample_viewport (touch_at 1 3 4);
            call_up sample_viewport (touch_at 1 2 5)]
           (mkClicked (touch_at 1 2 5) (new_Point 3 4) (new_Point 3 4)
              sample_viewport)).
  left. reflexivity.
Defined.

(** ** The guard, the wheel path and the dispatch to the plugin chain *)

Lemma handleWheel_receiver vp e this : fst (handleWheel vp e this) = this.
Proof.
  unfold handleWheel. destruct (ignored vp); [reflexivity|].
  now destruct (PrimFloat.leb _ _ && PrimFloat.leb _ _ && PrimFloat.leb _ _ && PrimFloat.leb _ _).
Qed.

(** X13. While the viewport is paused or not visible, input does nothing at
    all: a sequence of events that all arrive in that condition leaves the
    receiver exactly as it was and reaches no collaborator. *)
Theorem ignored_events_do_nothing (calls : list Call) (this : InputManager) :
  List.forallb ignored_event calls = true ->
  run calls this = (this, []).
Proof.
  revert this. induction calls as [|c rest IH]; intros this Hall;
    [reflexivity|].
  cbn [List.forallb] in Hall. apply andb_true_iff in Hall as [Hc Hrest].
  assert (Hstep : step c this = (this, [])).
  { destruct c as [vp e|vp e|vp e|vp e| |]; cbn [ignored_event] in Hc;
      try discriminate Hc; cbn [step];
      unfold down, move, up, handleWheel; now rewrite Hc. }
  rewrite run_cons, Hstep. cbn [fst snd]. now rewrite IH.
Qed.

Lemma ignored_events_do_nothing_witness :
  run [call_down (Viewport.mk true true 5 0 800 0 600 (fun p => p) (fun p => p)
                    no_plugins (Options.mk true false sample_canvas))
         (touch_at 2 9 9)] sample_pressed
  = (sample_pressed, []).
Proof.
  apply (ignored_events_do_nothing
           [call_down (Viewport.mk true true 5 0 800 0 600 (fun p => p) (fun p => p)
                         no_plugins (Options.mk true false sample_canvas))
              (touch_at 2 9 9)] sample_pressed).
  reflexivity.
Defined.

(** X14. Wheel events and pointer events do not interfere: dropping the wheel
    events from any sequence of calls changes neither the final receiver
    nor the 'clicked' signals emitted. *)
Theorem wheel_events_are_transparent (calls : list Call) (this : InputManager) :
  let others := List.filter (fun c => negb (is_wheel c)) calls in
  fst (run others this) = fst (run calls this) /\
  clicked (snd (run others this)) = clicked (snd (run calls this)).
Proof.
  revert this. induction calls as [|c rest IH]; intros this; [now split|].
  cbn zeta in *. cbn [List.filter].
  destruct (is_wheel c) eqn:Hw; cbn [negb]; rewrite !(run_cons c).
  - destruct c as [| | |vp e| |]; try discriminate Hw. cbn [step fst snd].
    rewrite handleWheel_receiver, clicked_app, clicked_handleWheel.
    apply IH.
  - cbn [fst snd]. rewrite !clicked_app.
    destruct (IH (fst (step c this))) as [-> ->]. now split.
Qed.

Lemma dispatch_propagation vp stop :
  List.filter is_dispatch (propagation vp stop) = [].
Proof.
  unfold propagation.
  now destruct (stop && Options.stopPropagation (Viewport.options vp)).
Qed.

Lemma step_dispatch c this :
  List.filter is_dispatch (snd (step c this)) = owed_dispatch c.
Proof.
  destruct c as [vp e|vp e|vp e|vp e| |]; cbn [step owed_dispatch];
    try reflexivity.
  - unfold down. destruct (ignored vp); [reflexivity|].
    cbn [snd List.filter is_dispatch]. now rewrite dispatch_propagation.
  - unfold move. destruct (ignored vp); [reflexivity|].
    cbn [snd List.filter is_dispatch]. now rewrite dispatch_propagation.
  - unfold up. destruct (ignored vp); [reflexivity|].
    unfold up_resolve.
    destruct (truthy _ && (_ =? 0)), (last (up_release e this));
      cbn [snd List.filter is_dispatch app];
      now rewrite dispatch_propagation.
  - unfold handleWheel. destruct (ignored vp); [reflexivity|]. cbn zeta.
    destruct (PrimFloat.leb _ _ && PrimFloat.leb _ _ && PrimFloat.leb _ _ && PrimFloat.leb _ _);
      [|reflexivity].
    cbn [snd List.filter is_dispatch].
    now destruct (PluginManager.wheel _ _ && negb _).
Qed.

(** X15. The plugin chain sees every handled event once and in order, whatever
    the registry and the click state: the calls on the chain made during
    any sequence of calls are, in order, one per handled down, move and up
    event and one per handled wheel event over the visible rectangle. *)
Theorem dispatch_trace (calls : list Call) (this : InputManager) :
  List.filter is_dispatch (snd (run calls this))
    = List.flat_map owed_dispatch calls.
Proof.
  revert this. induction calls as [|c rest IH]; intros this; [reflexivity|].
  rewrite run_cons. cbn [snd List.flat_map].
  now rewrite List.filter_app, step_dispatch, IH.
Qed.

Lemma In_propagation vp stop eff :
  List.In eff (propagation vp stop) <->
  eff = event_stopPropagation /\
  stop && Options.stopPropagation (Viewport.options vp) = true.
Proof.
  unfold propagation.
  destruct (stop && Options.stopPropagation (Viewport.options vp)); cbn.
  - split; [intros [<-|[]]; now split | intros [-> _]; now left].
  - split; [intros [] | intros [_ H]; discriminate H].
Qed.

(** X16. [event.stopPropagation()] is called by a down, move or up event exactly
    when the event is handled, the plugin chain's verdict for it is stop
    and the option [stopPropagation] is set, in any state of the receiver;
    [event.preventDefault()] is called by wheel events only. *)
Theorem stopPropagation_iff (c : Call) (this : InputManager) :
  (List.In event_stopPropagation (snd (step c this)) <-> stops c = true) /\
  (List.In event_preventDefault (snd (step c this)) -> is_wheel c = true).
Proof.
  destruct c as [vp e|vp e|vp e|vp e| |]; cbn [step stops is_wheel].
  - unfold down. destruct (ignored vp); cbn [negb andb snd].
    + split; [split; [intros [] | discriminate] | intros []].
    + split.
      * split.
        -- intros [H|H]; [discriminate H|]. now apply In_propagation in H.
        -- intros H. right. now apply In_propagation.
      * intros [H|H]; [discriminate H|].
        apply In_propagation in H as [H _]. discriminate H.
  - unfold move. destruct (ignored vp); cbn [negb andb snd].
    + split; [split; [intros [] | discriminate] | intros []].
    + split.
      * split.
        -- intros [H|H]; [discriminate H|]. now apply In_propagation in H.
        -- intros H. right. now apply In_propagation.
      * intros [H|H]; [discriminate H|].
        apply In_propagation in H as [H _]. discriminate H.
  - unfold up. destruct (ignored vp); cbn [negb andb snd].
    + split; [split; [intros [] | discriminate] | intros []].
    + assert (Hem : forall eff,
                List.In eff (snd (up_resolve vp e (up_release e this))) ->
                exists signal, eff = emit_clicked signal).
      { intros eff. unfold up_resolve.
        destruct (truthy _ && (_ =? 0)), (last (up_release e this));
          cbn [snd]; intros H; try (now destruct H).
        destruct H as [<-|[]]. eexists; reflexivity. }
      destruct (up_resolve vp e (up_release e this)) as [this' emitted].
      cbn [snd] in *. split.
      * split.
        -- intros [H|H]; [discriminate H|].
           apply List.in_app_or in H as [H|H].
           ++ destruct (Hem _ H) as [signal Hs]. discriminate Hs.
           ++ now apply In_propagation in H.
        -- intros H. right. apply List.in_or_app. right.
           now apply In_propagation.
      * intros [H|H]; [discriminate H|].
        apply List.in_app_or in H as [H|H].
        -- destruct (Hem _ H) as [signal Hs]. discriminate Hs.
        -- apply In_propagation in H as [H _]. discriminate H.
  - split; [|reflexivity].
    unfold handleWheel. destruct (ignored vp); [split; [intros [] | discriminate]|].
    destruct (PrimFloat.leb _ _ && PrimFloat.leb _ _ && PrimFloat.leb _ _ && PrimFloat.leb _ _);
      [|split; [intros [] | discriminate]].
    cbn [snd]. split; [|discriminate].
    destruct (PluginManager.wheel _ _ && negb _); cbn [List.In]; intros H;
      repeat (destruct H as [H|H]; [discriminate H|]); destruct H.
  - split; [split; [intros [] | discriminate] | intros []].
  - split; [split; [intros [] | discriminate] | intros []].
Qed.

(** ** The coordinate mapper on a detached canvas *)

(** X18. For a detached canvas (no parent) whose backing width and height
    are finite and not zero, [mapPositionToPoint] is the identity on screen
    points: every double comes back as it is. *)
Theorem mapPositionToPoint_detached (vp : Viewport.t) (x y : float) :
  let canvas := Options.canvasElement (Viewport.options vp) in
  Canvas.parentElement canvas = None ->
  is_finite (Canvas.width canvas) = true -> is_zero (Canvas.width canvas) = false ->
  is_finite (Canvas.height canvas) = true -> is_zero (Canvas.height canvas) = false ->
  mapPositionToPoint vp x y = new_Point x y.
Proof.
  intros canvas Hparent Hwf Hwz Hhf Hhz. unfold mapPositionToPoint.
  fold canvas. rewrite Hparent. cbn [rect_left rect_top rect_width rect_height].
  rewrite !float_sub_0_r, !float_div_same, !float_mul_1_r by assumption.
  reflexivity.
Qed.

Lemma mapPositionToPoint_detached_witness :
  mapPositionToPoint
    (Viewport.mk false true 5 0 800 0 600 (fun p => p) (fun p => p) no_plugins
       (Options.mk true false
          (Canvas.mk None 800 600 (mkDOMRect 10 10 400 300))))
    410 310
  = new_Point 410 310.
Proof.
  apply (mapPositionToPoint_detached
           (Viewport.mk false true 5 0 800 0 600 (fun p => p) (fun p => p) no_plugins
              (Options.mk true false
                 (Canvas.mk None 800 600 (mkDOMRect 10 10 400 300)))));
    reflexivity.
Defined.

(** ** Attaching and detaching the listeners *)

Lemma same_listener_foreign self canvas type m :
  foreign_to self canvas = true ->
  List.existsb (same_listener type (mkCallback self m)) canvas = false.
Proof.
  unfold foreign_to. induction canvas as [|l rest IH]; [reflexivity|].
  cbn [List.forallb List.existsb]. intros H.
  apply andb_true_iff in H as [Hl Hrest]. rewrite (IH Hrest), orb_false_r.
  unfold same_listener, Callback_eqb. cbn [owner method].
  apply negb_true_iff in Hl. now rewrite Hl, andb_false_r.
Qed.

Lemma addEventListener_foreign self canvas own type m passive :
  foreign_to self canvas = true ->
  addEventListener type (Some (mkCallback self m)) passive (canvas ++ own)
  = canvas ++ addEventListener type (Some (mkCallback self m)) passive own.
Proof.
  intros Hf. unfold addEventListener.
  rewrite List.existsb_app, (same_listener_foreign _ _ _ _ Hf). cbn [orb].
  destruct (List.existsb _ own); [reflexivity|]. now rewrite List.app_assoc.
Qed.

Lemma remove_listener_foreign self canvas own type m :
  foreign_to self canvas = true ->
  remove_listener type (mkCallback self m) (canvas ++ own)
  = canvas ++ remove_listener type (mkCallback self m) own.
Proof.
  unfold foreign_to. induction canvas as [|l rest IH]; [reflexivity|].
  cbn [List.forallb app remove_listener]. intros H.
  apply andb_true_iff in H as [Hl Hrest].
  assert (Hne : same_listener type (mkCallback self m) l = false).
  { unfold same_listener, Callback_eqb. cbn [owner method].
    apply negb_true_iff in Hl. now rewrite Hl, andb_false_r. }
  now rewrite Hne, (IH Hrest).
Qed.

Lemma same_listener_own self type m passive :
  same_listener type (mkCallback self m) (mkListener type (mkCallback self m) passive)
  = true.
Proof.
  unfold same_listener, Callback_eqb. cbn.
  rewrite String.eqb_refl, Nat.eqb_refl. now destruct m.
Qed.

Lemma new_InputManager_canvas self allow vp surface canvas :
  foreign_to self canvas = true ->
  the_canvas (new_InputManager self allow vp surface canvas)
  = canvas ++ own_listeners self allow (Options.passiveWheel (Viewport.options vp)).
Proof.
  intros Hf. unfold new_InputManager, addListeners.
  destruct allow; cbn -[addEventListener own_listeners];
    rewrite <- (List.app_nil_r canvas) at 1;
    rewrite !(addEventListener_foreign _ _ _ _ _ _ Hf); reflexivity.
Qed.

(** X19. The constructor attaches its listeners after those already on the
    canvas, which it leaves alone: 'pointerdown', 'pointerup',
    'pointercancel' and, unless [allowPreserveDragOutside] is set,
    'pointermove' and 'pointerleave', all passive, and 'wheel', passive as
    the option [passiveWheel] says; up, cancel and leave share one
    callback.  The receiver starts with nothing pressed, the viewport's
    [eventMode] is 'static', and its [hitArea] is the world rectangle
    unless [forceHitArea] is set. *)
Theorem constructor_attaches self allow vp surface (canvas : list Listener) :
  foreign_to self canvas = true ->
  let w := new_InputManager self allow vp surface canvas in
  the_canvas w
    = canvas ++ own_listeners self allow (Options.passiveWheel (Viewport.options vp)) /\
  the_manager w = constructed /\
  count (the_manager w) = 0 /\
  eventMode (the_surface w) = "static" /\
  hitArea (the_surface w) =
    (if present (forceHitArea surface) then hitArea surface
     else Some (new_Rectangle 0 0 (worldWidth surface) (worldHeight surface))).
Proof.
  intros Hf w. split; [now apply new_InputManager_canvas|].
  subst w. unfold new_InputManager, addListeners.
  destruct allow; cbn; destruct (forceHitArea surface); now repeat split.
Qed.

Lemma constructor_attaches_witness :
  the_canvas (new_InputManager 1 true sample_viewport sample_surface [sample_foreign])
  = [sample_foreign;
     mkListener "pointerdown" (mkCallback 1 method_down) true;
     mkListener "pointerup" (mkCallback 1 method_up) true;
     mkListener "pointercancel" (mkCallback 1 method_up) true;
     mkListener "wheel" (mkCallback 1 method_handleWheel) false].
Proof.
  apply (constructor_attaches 1 true sample_viewport sample_surface [sample_foreign]).
  reflexivity.
Defined.

(** X20. [destroy] undoes the constructor on the canvas: the listener list is
    again what it was before the [InputManager] was created, with or
    without [allowPreserveDragOutside]; the receiver's state and the
    viewport are not touched, and a second [destroy] changes nothing. *)
Theorem destroy_detaches self allow vp surface (canvas : list Listener) :
  foreign_to self canvas = true ->
  let w := new_InputManager self allow vp surface canvas in
  the_canvas (destroy w) = canvas /\
  the_manager (destroy w) = the_manager w /\
  the_surface (destroy w) = the_surface w /\
  destroy (destroy w) = destroy w.
Proof.
  intros Hf w.
  assert (Hfns : the_functions w =
            mkFunctions (Some (mkCallback self method_handleWheel))
                        (Some (mkCallback self method_up))
                        (Some (mkCallback self method_down))
                        (if allow then None else Some (mkCallback self method_move))).
  { subst w. unfold new_InputManager, addListeners. now destruct allow. }
  assert (Hcanvas : the_canvas (destroy w) = canvas).
  { unfold destroy. cbn [the_canvas]. rewrite Hfns.
    cbn [wheelFunction upFunction downFunction moveFunction].
    subst w. rewrite (new_InputManager_canvas _ _ _ _ _ Hf).
    unfold removeEventListener, own_listeners.
    destruct allow; cbn [app];
      repeat first
        [ rewrite (remove_listener_foreign _ _ _ _ _ Hf)
        | rewrite same_listener_own
        | progress cbn [remove_listener]
        | progress (unfold same_listener;
                    cbn [listener_type String.eqb Ascii.eqb Bool.eqb andb]) ];
      now rewrite List.app_nil_r. }
  split; [exact Hcanvas|]. split; [reflexivity|]. split; [reflexivity|].
  assert (Hnoop : forall type m,
            remove_listener type (mkCallback self m) canvas = canvas).
  { intros type m.
    pose proof (remove_listener_foreign self canvas [] type m Hf) as H.
    now rewrite !List.app_nil_r in H. }
  pose proof (eq_refl : the_functions (destroy w) = the_functions w) as Hsame.
  rewrite Hfns in Hsame.
  remember (destroy w) as v eqn:Hv. clear Hv.
  destruct v as [s c f m]. cbn [the_canvas the_functions] in Hcanvas, Hsame.
  subst c f. unfold destroy, removeEventListener.
  cbn [the_canvas the_functions the_surface the_manager
       wheelFunction upFunction downFunction moveFunction].
  destruct allow; now rewrite !Hnoop.
Qed.

Lemma destroy_detaches_witness :
  the_canvas (destroy (new_InputManager 1 false sample_viewport sample_surface
                         [sample_foreign]))
  = [sample_foreign].
Proof.
  apply (destroy_detaches 1 false sample_viewport sample_surface [sample_foreign]).
  reflexivity.
Defined.

(** ** The threshold at its edges *)

(** X21. [checkThreshold] does not depend on the sign of the change; a
    change of 0 reaches the threshold exactly when the threshold is at or
    below 0; with a threshold at or below 0 every change that is not NaN
    reaches it; a NaN change reaches no threshold. *)
Theorem checkThreshold_edges (vp : Viewport.t) (change : float) :
  checkThreshold vp (- change) = checkThreshold vp change /\
  checkThreshold vp 0 = (Viewport.threshold vp <=? 0)%float /\
  (is_nan change = false -> (Viewport.threshold vp <=? 0)%float = true ->
   checkThreshold vp change = true) /\
  (is_nan change = true -> checkThreshold vp change = false).
Proof.
  unfold checkThreshold. split; [|split; [|split]].
  - now rewrite float_abs_opp.
  - reflexivity.
  - apply float_leb_abs.
  - apply float_leb_nan.
Qed.
